(** * ReadParliament: the vote aggregation engine, embedded and verified

    Shallow embedding of [models.py], [config.py], [data_processor.py] and
    [output_writer.py].

    - A Python [dict] is an insertion-ordered association list with unique
      keys (module [Dict]); [sorted] is a merge sort on integer keys.
    - A Python [int] is a [Z]; a [str] is a [string] whose characters are
      read as code points below 256.
    - The processor's two dictionaries and the console form the state that
      every method threads; an exception leaves the state as it was at the
      point where it was raised (monad [M]).
    - The HTTP fetch and the JSON decoding of one document are the outside
      world: a function from division number to a [Response]. *)

From Stdlib Require Import ZArith Ascii String.
From stdpp Require Import relations list list_numbers sorting strings pretty.

Local Open Scope string_scope.
Local Open Scope list_scope.
Local Open Scope Z_scope.

(** ** Python dictionaries *)

Module Dict.
Section Ops.
Context {V : Type}.

(** [d.get(k)] / [k in d] / [d[k]] all go through this lookup. *)
Fixpoint get (d : list (Z * V)) (k : Z) : option V :=
  match d with
  | [] => None
  | (k', v) :: d' => if k' =? k then Some v else get d' k
  end.

Definition contains (d : list (Z * V)) (k : Z) : bool :=
  match get d k with Some _ => true | None => false end.

(** [d[k] = v]: an existing key keeps its position, a new key goes last. *)
Fixpoint set (d : list (Z * V)) (k : Z) (v : V) : list (Z * V) :=
  match d with
  | [] => [(k, v)]
  | (k', v') :: d' =>
      if k' =? k then (k', v) :: d' else (k', v') :: set d' k v
  end.

(** [d.keys()], in insertion order. *)
Definition keys (d : list (Z * V)) : list Z := d.*1.
End Ops.
End Dict.

(** [sorted(xs)] on integers. *)
Definition sorted (xs : list Z) : list Z := merge_sort Z.le xs.

(** ** models.py *)

Inductive Vote : Type :=
| Missing | AyeTeller | Aye | Both | No | NoTeller.

(** The [IntEnum] value, [int(vote)]. *)
Definition int_of_Vote (v : Vote) : Z :=
  match v with
  | Missing => -9
  | AyeTeller => 1
  | Aye => 2
  | Both => 3
  | No => 4
  | NoTeller => 5
  end.

(** [datetime.datetime]: the calendar fields and, for an aware value, the
    UTC offset in seconds. *)
Record datetime : Type := mk_datetime {
  year : Z; month : Z; day : Z;
  hour : Z; minute : Z; second : Z; microsecond : Z;
  tzinfo : option Z
}.

Record MemberDto : Type := mk_MemberDto {
  MemberId : Z;
  Name : string;
  Party : string;
  SubParty : option string;
  PartyColour : option string;
  PartyAbbreviation : option string;
  MemberFrom : option string;
  ListAs : option string;
  ProxyName : option string
}.

Record DivisionDto : Type := mk_DivisionDto {
  DivisionId : Z;
  Date : datetime;
  Title : string;
  AyeCount : Z;
  NoCount : Z;
  Ayes : list MemberDto;
  AyeTellers : list MemberDto;
  Noes : list MemberDto;
  NoTellers : list MemberDto;
  NoVoteRecorded : list MemberDto
}.

Record DivisionDat : Type := mk_DivisionDat {
  division_id : Z;
  date : datetime;
  bill_name : string
}.

Record MemberDat : Type := mk_MemberDat {
  member_id : Z;
  first_name : string;
  surname : string;
  party : string;
  division_votes : list (Z * Vote)
}.

(** ** config.py *)

Definition DIVISION_START : Z := 723.
Definition DIVISION_END : Z := 1810.

(** [datetime.fromisoformat(DATE_START)] with [DATE_START = "2019-12-11"]:
    a naive datetime at midnight. *)
Definition DATE_START : datetime := mk_datetime 2019 12 11 0 0 0 0 None.
(** [datetime.fromisoformat(DATE_END)] with [DATE_END = "2024-07-03"]. *)
Definition DATE_END : datetime := mk_datetime 2024 7 3 0 0 0 0 None.

(** ** Exceptions and the state-and-exception monad *)

Inductive exn : Type :=
| RequestException            (* raised by [ApiClient.read_json] *)
| DecodeError (msg : string)  (* anything raised while decoding a document *)
| TypeError                   (* naive datetime compared with an aware one *)
| IndexError                  (* [name_parts[0]] on an empty list *)
| KeyError (k : Z).           (* [d[k]] on a missing key *)

Inductive Result (A : Type) : Type :=
| Ok (a : A)
| Raise (e : exn).
Arguments Ok {A} a.
Arguments Raise {A} e.

(** What [print] has written so far, one entry per call. *)
Inductive Line : Type :=
| Fetching (first last : Z)
| Progress (division_no : Z)
| Duplicate (member_id division_id : Z) (vote existing : Vote)
| DoesNotExist (division_no : Z)
| ErrorLine (division_no : Z) (e : exn)
| Processed (n : nat)
| Tracked (n : nat).

Record State : Type := mk_State {
  divisions : list (Z * DivisionDat);
  members : list (Z * MemberDat);
  console : list Line
}.

(** [DataProcessor.__init__]. *)
Definition init : State := mk_State [] [] [].

Definition M (A : Type) : Type := State -> Result A * State.

Definition ret {A} (a : A) : M A := fun s => (Ok a, s).
Definition raise {A} (e : exn) : M A := fun s => (Raise e, s).
Definition bind {A B} (m : M A) (k : A -> M B) : M B :=
  fun s =>
    match m s with
    | (Ok a, s') => k a s'
    | (Raise e, s') => (Raise e, s')
    end.
Definition lift {A} (r : Result A) : M A := fun s => (r, s).

Declare Scope py_scope.
Delimit Scope py_scope with py.
Notation "x <- m ;; k" := (bind m (fun x => k))
  (at level 100, m at next level, right associativity) : py_scope.
Notation "m ;;; k" := (bind m (fun _ => k))
  (at level 100, right associativity) : py_scope.

Definition print (l : Line) : M unit :=
  fun s => (Ok tt, mk_State (divisions s) (members s) (console s ++ [l])).

Definition get_state : M State := fun s => (Ok s, s).

Definition try_except {A} (m : M A) (handler : exn -> M A) : M A :=
  fun s =>
    match m s with
    | (Ok a, s') => (Ok a, s')
    | (Raise e, s') => handler e s'
    end.

(** [for x in xs: body(x)]. *)
Fixpoint for_each {A} (body : A -> M unit) (xs : list A) : M unit :=
  match xs with
  | [] => ret tt
  | x :: xs' => bind (body x) (fun _ => for_each body xs')
  end.

(** ** datetime comparison

    [datetime.__lt__] and [__gt__]: two naive values, or two aware values
    with the same offset, compare field by field; two aware values with
    different offsets compare as instants; a naive and an aware value
    raise [TypeError]. *)

Definition _is_leap (y : Z) : bool :=
  (y mod 4 =? 0) && (negb (y mod 100 =? 0) || (y mod 400 =? 0)).

Definition _days_before_year (y : Z) : Z :=
  let y' := y - 1 in y' * 365 + y' / 4 - y' / 100 + y' / 400.

Definition _DAYS_BEFORE_MONTH : list Z :=
  [-1; 0; 31; 59; 90; 120; 151; 181; 212; 243; 273; 304; 334].

Definition _days_before_month (y m : Z) : Z :=
  nth (Z.to_nat m) _DAYS_BEFORE_MONTH 0
  + (if (2 <? m) && _is_leap y then 1 else 0).

Definition _ymd2ord (y m d : Z) : Z :=
  _days_before_year y + _days_before_month y m + d.

Definition fields (d : datetime) : list Z :=
  [year d; month d; day d; hour d; minute d; second d; microsecond d].

Fixpoint lex_compare (xs ys : list Z) : comparison :=
  match xs, ys with
  | [], [] => Eq
  | [], _ :: _ => Lt
  | _ :: _, [] => Gt
  | x :: xs', y :: ys' =>
      match x ?= y with
      | Eq => lex_compare xs' ys'
      | c => c
      end
  end.

(** Microseconds since the epoch of the proleptic calendar, in UTC. *)
Definition utc_instant (d : datetime) (offset : Z) : Z :=
  ((_ymd2ord (year d) (month d) (day d) * 86400
    + hour d * 3600 + minute d * 60 + second d - offset) * 1000000)
  + microsecond d.

Definition datetime_cmp (a b : datetime) : Result comparison :=
  match tzinfo a, tzinfo b with
  | None, None => Ok (lex_compare (fields a) (fields b))
  | Some oa, Some ob =>
      if oa =? ob then Ok (lex_compare (fields a) (fields b))
      else Ok (utc_instant a oa ?= utc_instant b ob)
  | _, _ => Raise TypeError
  end.

Definition datetime_lt (a b : datetime) : Result bool :=
  match datetime_cmp a b with
  | Ok Lt => Ok true
  | Ok _ => Ok false
  | Raise e => Raise e
  end.

Definition datetime_gt (a b : datetime) : Result bool :=
  match datetime_cmp a b with
  | Ok Gt => Ok true
  | Ok _ => Ok false
  | Raise e => Raise e
  end.

(** ** [str.split(maxsplit=1)] *)

(** [str.isspace] on one character with a code point below 256. *)
Definition isspace (c : ascii) : bool :=
  let n := Z.of_N (N_of_ascii c) in
  ((9 <=? n) && (n <=? 13)) || ((28 <=? n) && (n <=? 32))
  || (n =? 133) || (n =? 160).

Fixpoint skip_spaces (s : string) : string :=
  match s with
  | String c s' => if isspace c then skip_spaces s' else s
  | EmptyString => EmptyString
  end.

Fixpoint take_word (s : string) : string * string :=
  match s with
  | String c s' =>
      if isspace c then (EmptyString, s)
      else let (w, r) := take_word s' in (String c w, r)
  | EmptyString => (EmptyString, EmptyString)
  end.

(** Splitting on whitespace with at most one split: leading whitespace is
    dropped, the first word is cut off, and what follows the whitespace
    after it (if anything) is kept whole. *)
Definition split_maxsplit1 (s : string) : list string :=
  match skip_spaces s with
  | EmptyString => []
  | s1 =>
      let (w, r) := take_word s1 in
      match skip_spaces r with
      | EmptyString => [w]
      | r' => [w; r']
      end
  end.

(** [a or b] for an optional string [a]: [None] and the empty string are
    falsy. *)
Definition py_or (a : option string) (b : string) : string :=
  match a with
  | Some EmptyString => b
  | Some s => s
  | None => b
  end.

(** ** data_processor.py *)

(** The outside world: what fetching and decoding the document of one
    division number yields. [NotAvailable] is a [RequestException] of
    [ApiClient.read_json]; [Malformed] is any exception raised while the
    document is decoded by [_parse_division_dto] (a missing required
    field of the division or of one of its members, a date that does not
    parse); [Document] is the decoded [DivisionDto]. *)
Inductive Response : Type :=
| NotAvailable
| Malformed (msg : string)
| Document (dto : DivisionDto).

Definition fetch_division (api : Z -> Response) (division_no : Z)
  : M DivisionDto :=
  match api division_no with
  | NotAvailable => raise RequestException
  | Malformed msg => raise (DecodeError msg)
  | Document dto => ret dto
  end.

(** Lines 192-205: create the member record on first encounter. *)
Definition create_member (member : MemberDto) : M unit :=
  fun s =>
    match split_maxsplit1 (Name member) with
    | [] => (Raise IndexError, s)
    | first :: rest =>
        let sur := match rest with r :: _ => r | [] => EmptyString end in
        (Ok tt,
         mk_State (divisions s)
           (Dict.set (members s) (MemberId member)
              (mk_MemberDat (MemberId member) first sur
                 (py_or (PartyAbbreviation member) (Party member)) []))
           (console s))
    end.

(** Lines 209-216: record the vote, or report the duplicate. *)
Definition record_vote (division_id : Z) (vote : Vote) (mp_id : Z)
  : M unit :=
  fun s =>
    match Dict.get (members s) mp_id with
    | None => (Raise (KeyError mp_id), s)
    | Some md =>
        match Dict.get (division_votes md) division_id with
        | Some existing =>
            print (Duplicate mp_id division_id vote existing) s
        | None =>
            (Ok tt,
             mk_State (divisions s)
               (Dict.set (members s) mp_id
                  (mk_MemberDat (member_id md) (first_name md) (surname md)
                     (party md)
                     (Dict.set (division_votes md) division_id vote)))
               (console s))
        end
    end.

(** The body of the loop over [members]. *)
Definition add_member_vote (division_id : Z) (vote : Vote)
    (member : MemberDto) : M unit :=
  (s <- get_state ;;
   (if Dict.contains (members s) (MemberId member) then ret tt
    else create_member member) ;;;
   record_vote division_id vote (MemberId member))%py.

Definition _add_member_vote_category (division_id : Z)
    (members : list MemberDto) (vote : Vote) : M unit :=
  match members with
  | [] => ret tt
  | _ => for_each (add_member_vote division_id vote) members
  end.

(** Lines 71-75: store the division metadata. *)
Definition store_division (dto : DivisionDto) : M unit :=
  fun s =>
    (Ok tt,
     mk_State
       (Dict.set (divisions s) (DivisionId dto)
          (mk_DivisionDat (DivisionId dto) (Date dto) (Title dto)))
       (members s) (console s)).

(** Line 67: [Date < date_start or Date > date_end]. *)
Definition out_of_range (d date_start date_end : datetime) : Result bool :=
  match datetime_lt d date_start with
  | Raise e => Raise e
  | Ok true => Ok true
  | Ok false => datetime_gt d date_end
  end.

(** Lines 77-102: the five categories, in the order of the calls. *)
Definition aggregate_votes (dto : DivisionDto) : M unit :=
  (_add_member_vote_category (DivisionId dto) (Ayes dto) Aye ;;;
   _add_member_vote_category (DivisionId dto) (AyeTellers dto) AyeTeller ;;;
   _add_member_vote_category (DivisionId dto) (Noes dto) No ;;;
   _add_member_vote_category (DivisionId dto) (NoTellers dto) NoTeller ;;;
   _add_member_vote_category (DivisionId dto) (NoVoteRecorded dto) Missing)%py.

(** Lines 57-102: the [try] block of one iteration. *)
Definition process_division (api : Z -> Response)
    (date_start date_end : datetime) (division_no : Z) : M unit :=
  (division_dto <- fetch_division api division_no ;;
   skip <- lift (out_of_range (Date division_dto) date_start date_end) ;;
   if (skip : bool) then ret tt
   else (store_division division_dto ;;; aggregate_votes division_dto))%py.

(** Lines 54-111: one iteration, with its two [except] clauses. *)
Definition iteration (api : Z -> Response) (date_start date_end : datetime)
    (division_no : Z) : M unit :=
  (print (Progress division_no) ;;;
   try_except (process_division api date_start date_end division_no)
     (fun e =>
        match e with
        | RequestException => print (DoesNotExist division_no)
        | _ => print (ErrorLine division_no e)
        end))%py.

Definition read_divisions (api : Z -> Response) : M unit :=
  (print (Fetching DIVISION_START (DIVISION_END - 1)) ;;;
   for_each (iteration api DATE_START DATE_END)
     (seqZ DIVISION_START (DIVISION_END - DIVISION_START)) ;;;
   s <- get_state ;;
   print (Processed (length (divisions s))) ;;;
   print (Tracked (length (members s))))%py.

Definition process_divisions (api : Z -> Response) : M unit :=
  read_divisions api.

(** The processor after a whole run against [api]. *)
Definition run (api : Z -> Response) : State :=
  snd (process_divisions api init).

(** ** output_writer.py *)

(** [str(z)] for an integer. *)
Definition str (z : Z) : string := pretty z.

Definition tab : string := String (ascii_of_nat 9) EmptyString.
Definition newline : string := String (ascii_of_nat 10) EmptyString.

(** [sep.join(xs)]. *)
Fixpoint join (sep : string) (xs : list string) : string :=
  match xs with
  | [] => EmptyString
  | [x] => x
  | x :: xs' => x +:+ sep +:+ join sep xs'
  end.

Definition pad2 (z : Z) : string :=
  if z <? 10 then "0" +:+ str z else str z.

(** [d.strftime('%Y-%m-%d')], for a year of four digits. *)
Definition strftime_ymd (d : datetime) : string :=
  str (year d) +:+ "-" +:+ pad2 (month d) +:+ "-" +:+ pad2 (day d).

Fixpoint map_result {A B} (f : A -> Result B) (xs : list A)
  : Result (list B) :=
  match xs with
  | [] => Ok []
  | x :: xs' =>
      match f x with
      | Raise e => Raise e
      | Ok y =>
          match map_result f xs' with
          | Raise e => Raise e
          | Ok ys => Ok (y :: ys)
          end
      end
  end.

(** Lines 42-47: the column order and the header row. *)
Definition mp_ids (members : list (Z * MemberDat)) : list Z :=
  sorted (Dict.keys members).

Definition header_fields (members : list (Z * MemberDat)) : list string :=
  ["rowid"; "date"; "voteno"; "Bill"]
  ++ map (fun mp_id => "mpid" +:+ str mp_id) (mp_ids members).

(** Lines 63-70: the vote code of one member in one division's row. *)
Definition vote_cell (members : list (Z * MemberDat))
    (division : DivisionDat) (mp_id : Z) : Result string :=
  match Dict.get members mp_id with
  | None => Raise (KeyError mp_id)
  | Some m =>
      let vote :=
        match Dict.get (division_votes m) (division_id division) with
        | Some v => v
        | None => Missing
        end in
      Ok (str (int_of_Vote vote))
  end.

(** Lines 52-70: the fields of one data row. *)
Definition row_fields (divisions : list (Z * DivisionDat))
    (members : list (Z * MemberDat)) (key : Z) : Result (list string) :=
  match Dict.get divisions key with
  | None => Raise (KeyError key)
  | Some division =>
      match map_result (vote_cell members division) (mp_ids members) with
      | Raise e => Raise e
      | Ok cells =>
          Ok ([str (division_id division); strftime_ymd (date division);
               str (division_id division); bill_name division] ++ cells)
      end
  end.

(** The rows of the matrix file, header first, each as its list of
    fields. *)
Definition dat_table (divisions : list (Z * DivisionDat))
    (members : list (Z * MemberDat)) : Result (list (list string)) :=
  match map_result (row_fields divisions members)
          (sorted (Dict.keys divisions)) with
  | Raise e => Raise e
  | Ok rows => Ok (header_fields members :: rows)
  end.

(** [write_dat_file]: the text written to the matrix file. *)
Definition write_dat_file (divisions : list (Z * DivisionDat))
    (members : list (Z * MemberDat)) : Result string :=
  match dat_table divisions members with
  | Raise e => Raise e
  | Ok table =>
      Ok (String.concat EmptyString
            (map (fun fs => join tab fs +:+ newline) table))
  end.

(** ** Notions used by the properties *)

(** The action [m] takes every state to one related to it by [R]. *)
Definition preserves (R : State → State → Prop) {A} (m : M A) : Prop :=
  ∀ s, R s (snd (m s)).

(** The outcome stored for a member and a division, if any. *)
Definition stored_vote (s : State) (mp_id division_id : Z) : option Vote :=
  match Dict.get (members s) mp_id with
  | Some md => Dict.get (division_votes md) division_id
  | None => None
  end.

(** The member record that the first encounter of [member] creates, with
    its first vote. *)
Definition new_member (member : MemberDto) (first : string)
    (rest : list string) (votes : list (Z * Vote)) : MemberDat :=
  mk_MemberDat (MemberId member) first
    (match rest with r :: _ => r | [] => EmptyString end)
    (py_or (PartyAbbreviation member) (Party member)) votes.

(** Console lines that report a problem with a division or a vote. *)
Definition is_report (l : Line) : bool :=
  match l with
  | Duplicate _ _ _ _ | ErrorLine _ _ => true
  | _ => false
  end.

(** Console lines that report a duplicate vote of member [m] in
    division [d]. *)
Definition is_duplicate_for (m d : Z) (l : Line) : bool :=
  match l with
  | Duplicate m' d' _ _ => (m' =? m) && (d' =? d)
  | _ => false
  end.

(** The writes a run is made of. *)
Inductive write : State → State → Prop :=
| write_print l s : write s (snd (print l s))
| write_store dto s : write s (snd (store_division dto s))
| write_member d v mem s : write s (snd (add_member_vote d v mem s)).

(** [md'] has the given name, surname and party of [md]. *)
Definition same_identity (md md' : MemberDat) : Prop :=
  first_name md' = first_name md
  ∧ surname md' = surname md
  ∧ party md' = party md.

(** Every member of [s] is a member of [s'], under the same name and
    party. *)
Definition keeps_identities (s s' : State) : Prop :=
  ∀ m md, Dict.get (members s) m = Some md →
    ∃ md', Dict.get (members s') m = Some md' ∧ same_identity md md'.

(** Every division id under which some member holds a vote is a key of
    the division registry. *)
Definition votes_registered (s : State) : Prop :=
  ∀ m md d,
    Dict.get (members s) m = Some md →
    is_Some (Dict.get (division_votes md) d) →
    is_Some (Dict.get (divisions s) d).

(** Recording a vote for a registered division keeps the invariant and
    the division registry. *)
Definition keeps_registered (d : Z) (s s' : State) : Prop :=
  votes_registered s → is_Some (Dict.get (divisions s) d) →
  votes_registered s' ∧ divisions s' = divisions s.

Definition registered_step (s s' : State) : Prop :=
  votes_registered s → votes_registered s'.

(** The member records of a division paired with the outcome of their
    category, in the order in which [aggregate_votes] reaches them. *)
Definition category_votes (dto : DivisionDto) : list (MemberDto * Vote) :=
  map (λ m, (m, Aye)) (Ayes dto)
  ++ map (λ m, (m, AyeTeller)) (AyeTellers dto)
  ++ map (λ m, (m, No)) (Noes dto)
  ++ map (λ m, (m, NoTeller)) (NoTellers dto)
  ++ map (λ m, (m, Missing)) (NoVoteRecorded dto).

(** The outcomes under which member [m] is listed, in that order. *)
Fixpoint votes_of (m : Z) (l : list (MemberDto * Vote)) : list Vote :=
  match l with
  | [] => []
  | (mem, v) :: l' =>
      if MemberId mem =? m then v :: votes_of m l' else votes_of m l'
  end.

(** Member [m] is in the list [ms] of one category. *)
Definition listed (m : Z) (ms : list MemberDto) : bool :=
  existsb (λ mem, MemberId mem =? m) ms.

(** The first category, in the order affirmative, affirmative tellers,
    negative, negative tellers, not recorded, that lists member [m]. *)
Definition first_category (dto : DivisionDto) (m : Z) : option Vote :=
  if listed m (Ayes dto) then Some Aye
  else if listed m (AyeTellers dto) then Some AyeTeller
  else if listed m (Noes dto) then Some No
  else if listed m (NoTellers dto) then Some NoTeller
  else if listed m (NoVoteRecorded dto) then Some Missing
  else None.

(** The value of a result, or [dflt] for a raised exception. *)
Definition ok_or {A} (dflt : A) (r : Result A) : A :=
  match r with Ok a => a | Raise _ => dflt end.

(** Two dictionaries hold the same keys, in whatever order, and under
    each key values related by [R]. *)
Definition same_entries {V} (R : V → V → Prop) (d d' : list (Z * V)) : Prop :=
  Dict.keys d ≡ₚ Dict.keys d'
  ∧ ∀ k v, Dict.get d k = Some v → ∃ v', Dict.get d' k = Some v' ∧ R v v'.

(** Two member records hold the same outcome for every division. *)
Definition same_votes (md md' : MemberDat) : Prop :=
  ∀ d, Dict.get (division_votes md) d = Dict.get (division_votes md') d.

(** The registries a run builds are dictionaries: their keys are unique,
    and every record is filed under its own id. *)
Definition registries_wf (s : State) : Prop :=
  NoDup (Dict.keys (divisions s))
  ∧ NoDup (Dict.keys (members s))
  ∧ (∀ k dv, Dict.get (divisions s) k = Some dv → division_id dv = k)
  ∧ (∀ k md, Dict.get (members s) k = Some md → member_id md = k).

Definition wf_step (s s' : State) : Prop :=
  registries_wf s → registries_wf s'.

(** ** Sample documents and registries *)

Definition member (id : Z) (name party : string) (abbr : option string)
  : MemberDto :=
  mk_MemberDto id name party None None abbr None None None.

Definition division (id : Z) (d : datetime) (title : string)
    (ayes aye_tellers noes no_tellers absent : list MemberDto)
  : DivisionDto :=
  mk_DivisionDto id d title (Z.of_nat (length ayes)) (Z.of_nat (length noes))
    ayes aye_tellers noes no_tellers absent.

Definition naive (y m d h mi : Z) : datetime :=
  mk_datetime y m d h mi 0 0 None.

(** Division 100 in range with member 5 as Aye and member 6 as No
    teller; division 101 out of range with member 5 as Aye. *)
Definition api_scenario (division_no : Z) : Response :=
  if division_no =? 723 then
    Document (division 100 (naive 2020 1 8 18 25) "Bill A"
                [member 5 "Jo Smith" "X" None] [] []
                [member 6 "Al Jones" "Y" None] [])
  else if division_no =? 724 then
    Document (division 101 (naive 2025 1 8 18 25) "Bill B"
                [member 5 "Jo Smith" "X" None] [] [] [] [])
  else NotAvailable.

(** Two documents that carry the same division id 100, with different
    dates and titles. *)
Definition api_same_id (division_no : Z) : Response :=
  if division_no =? 723 then
    Document (division 100 (naive 2020 1 8 18 25) "Bill A"
                [member 5 "Jo Smith" "X" None] [] [] [] [])
  else if division_no =? 724 then
    Document (division 100 (naive 2020 1 9 12 0) "Bill B"
                [member 6 "Al Jones" "Y" None] [] [] [] [])
  else NotAvailable.

(** One division held at noon on the last day of the range. *)
Definition api_last_day (division_no : Z) : Response :=
  if division_no =? 723 then
    Document (division 100 (naive 2024 7 3 12 0) "Bill A"
                [member 5 "Jo Smith" "X" None] [] [] [] [])
  else NotAvailable.

(** One division in the middle of the range whose timestamp carried the
    "Z" suffix, so that it was decoded as an aware datetime at offset 0. *)
Definition api_utc (division_no : Z) : Response :=
  if division_no =? 723 then
    Document (division 100 (mk_datetime 2020 1 8 18 25 0 0 (Some 0)) "Bill A"
                [member 5 "Jo Smith" "X" None] [] [] [] [])
  else NotAvailable.

(** One division in range whose second Aye voter has an empty name. *)
Definition api_blank_name (division_no : Z) : Response :=
  if division_no =? 723 then
    Document (division 100 (naive 2020 1 8 18 25) "Bill A"
                [member 5 "Jo Smith" "X" None; member 6 EmptyString "Y" None] []
                [member 7 "Al Jones" "Z" None] [] [])
  else NotAvailable.

(** Member 7, already known as "Jo Smith" of party "X", is listed as
    "J. Smith" of party "Y" in division 101. *)
Definition api_two_names (division_no : Z) : Response :=
  if division_no =? 724 then
    Document (division 101 (naive 2020 1 9 12 0) "Bill B"
                [member 7 "J. Smith" "Y" None] [] [] [] [])
  else NotAvailable.

(** Member 5 is listed as Aye, as No and as not recorded in division
    100; member 6 only as a No teller. *)
Definition api_two_categories (division_no : Z) : Response :=
  if division_no =? 723 then
    Document (division 100 (naive 2020 1 8 18 25) "Bill A"
                [member 5 "Jo Smith" "X" None] []
                [member 5 "Jo Smith" "X" None]
                [member 6 "Al Jones" "Y" None]
                [member 5 "Jo Smith" "X" None])
  else NotAvailable.

(** Member 6 is first seen in division 101, after division 100. *)
Definition api_late_member (division_no : Z) : Response :=
  if division_no =? 723 then
    Document (division 100 (naive 2020 1 8 18 25) "Bill A"
                [member 5 "Jo Smith" "X" None] [] [] [] [])
  else if division_no =? 724 then
    Document (division 101 (naive 2020 1 9 12 0) "Bill B"
                [] [] [member 6 "Al Jones" "Y" None] [] [])
  else NotAvailable.

(** Registry entries: a member with its votes, a division. *)
Definition plain_member (id : Z) (votes : list (Z * Vote)) : Z * MemberDat :=
  (id, mk_MemberDat id "A" "B" "X" votes).

Definition plain_division (id : Z) : Z * DivisionDat :=
  (id, mk_DivisionDat id (naive 2020 1 8 18 25) "Bill").

(** ** Further notions: the console of a run, names *)

(** The division numbers announced on the console, in order. *)
Definition progress_numbers (c : list Line) : list Z :=
  omap (λ l, match l with Progress n => Some n | _ => None end) c.

(** The line that the [except] clauses of one iteration print for an
    exception (lines 104-111). *)
Definition report (division_no : Z) (e : exn) : Line :=
  match e with
  | RequestException => DoesNotExist division_no
  | _ => ErrorLine division_no e
  end.

Definition is_duplicate_line (l : Line) : bool :=
  match l with
  | Duplicate _ _ _ _ => true
  | _ => false
  end.

(** [s'] is [s] with duplicate reports added to the console. *)
Definition adds_duplicates (s s' : State) : Prop :=
  ∃ new, console s' = console s ++ new
         ∧ Forall (λ l, is_duplicate_line l = true) new.

(** What an iteration prints after the progress line when the division
    is skipped before it is stored: nothing for a division outside the
    date range, one report for a failure; [None] when the division is
    admitted. *)
Definition skip_lines (api : Z → Response) (ds de : datetime)
    (division_no : Z) : option (list Line) :=
  match api division_no with
  | NotAvailable => Some [report division_no RequestException]
  | Malformed msg => Some [report division_no (DecodeError msg)]
  | Document dto =>
      match out_of_range (Date dto) ds de with
      | Ok true => Some []
      | Ok false => None
      | Raise e => Some [report division_no e]
      end
  end.

(** Every character of [s] is whitespace (an empty [s] included): the
    names on which [name_parts[0]] fails. *)
Fixpoint all_space (s : string) : bool :=
  match s with
  | EmptyString => true
  | String c s' => isspace c && all_space s'
  end.

Fixpoint no_space (s : string) : bool :=
  match s with
  | EmptyString => true
  | String c s' => negb (isspace c) && no_space s'
  end.

Definition starts_with_word (s : string) : bool :=
  match s with
  | EmptyString => false
  | String c _ => negb (isspace c)
  end.

(** A stored name as the split leaves it: a given name that is one word,
    and a surname that is empty or begins with a word. *)
Definition well_named (md : MemberDat) : Prop :=
  first_name md ≠ EmptyString
  ∧ no_space (first_name md) = true
  ∧ (surname md = EmptyString ∨ starts_with_word (surname md) = true).

(** The member records of a division, in the order of the categories. *)
Definition listed_members (dto : DivisionDto) : list MemberDto :=
  Ayes dto ++ AyeTellers dto ++ Noes dto ++ NoTellers dto
  ++ NoVoteRecorded dto.

Definition is_ok {A} (r : Result A) : bool :=
  match r with Ok _ => true | Raise _ => false end.

(** Every outcome stored in [s] is stored in [s'] as well. *)
Definition keeps_votes (s s' : State) : Prop :=
  ∀ m d v, stored_vote s m d = Some v → stored_vote s' m d = Some v.

(** No member holds the reserved outcome [Both]. *)
Definition no_both (s : State) : Prop :=
  ∀ m d v, stored_vote s m d = Some v → v ≠ Both.

(** Every registered division passed the date filter. *)
Definition all_in_range (ds de : datetime) (s : State) : Prop :=
  ∀ k dv, Dict.get (divisions s) k = Some dv →
    out_of_range (date dv) ds de = Ok false.

Definition all_well_named (s : State) : Prop :=
  ∀ m md, Dict.get (members s) m = Some md → well_named md.

(** ** output_writer.py: the metadata file *)

(** [MEMBER_URL] of config.py. *)
Definition MEMBER_URL : string := "<empty>".

(** Lines 86-88: the 19 padding rows. *)
Definition txt_padding : list (list string) :=
  map (λ i, ["ignore " +:+ str i]) (seqZ 0 19).

(** Line 91: the header row. *)
Definition txt_header : list string :=
  ["mpid"; "firstname"; "surname"; "party"; "PublicWhip URL"].

(** Lines 95-100: the row of the member stored under [key]. *)
Definition member_fields (members : list (Z * MemberDat)) (key : Z)
  : Result (list string) :=
  match Dict.get members key with
  | None => Raise (KeyError key)
  | Some member =>
      Ok [str (member_id member); first_name member; surname member;
          party member; MEMBER_URL]
  end.

(** The rows of the metadata file, each as its list of fields. *)
Definition txt_table (members : list (Z * MemberDat))
  : Result (list (list string)) :=
  match map_result (member_fields members) (sorted (Dict.keys members)) with
  | Raise e => Raise e
  | Ok rows => Ok (txt_padding ++ [txt_header] ++ rows)
  end.

(** [write_txt_file]: the text written to the metadata file. *)
Definition write_txt_file (members : list (Z * MemberDat)) : Result string :=
  match txt_table members with
  | Raise e => Raise e
  | Ok table =>
      Ok (String.concat EmptyString
            (map (fun fs => join tab fs +:+ newline) table))
  end.

(** ** JSON documents and their decoding *)

(** A JSON value as [response.json()] returns it, numbers being
    integers. An object is a [dict] keyed by strings. *)
#[warnings="-register-all"]
Inductive json : Type :=
| JNull
| JBool (b : bool)
| JInt (z : Z)
| JStr (s : string)
| JList (xs : list json)
| JObj (fields : list (string * json)).

(** [bool(j)]: [None], [False], [0], the empty string, list and dict are
    falsy. *)
Definition truthy (j : json) : bool :=
  match j with
  | JNull => false
  | JBool b => b
  | JInt z => negb (z =? 0)
  | JStr s => negb (String.eqb s EmptyString)
  | JList xs => match xs with [] => false | _ => true end
  | JObj fields => match fields with [] => false | _ => true end
  end.

(** Dictionaries keyed by strings, as [Dict] is for integers. *)
Module SDict.
Section Ops.
Context {V : Type}.

Fixpoint get (d : list (string * V)) (k : string) : option V :=
  match d with
  | [] => None
  | (k', v) :: d' => if String.eqb k' k then Some v else get d' k
  end.

Fixpoint set (d : list (string * V)) (k : string) (v : V)
  : list (string * V) :=
  match d with
  | [] => [(k, v)]
  | (k', v') :: d' =>
      if String.eqb k' k then (k', v) :: d' else (k', v') :: set d' k v
  end.

Definition keys (d : list (string * V)) : list string := d.*1.
End Ops.
End SDict.

(** [k in names]. *)
Definition is_field (k : string) (names : list string) : bool :=
  existsb (String.eqb k) names.

(** The field names of the two dataclasses of models.py. *)
Definition MemberDto_fields : list string :=
  ["MemberId"; "Name"; "Party"; "SubParty"; "PartyColour";
   "PartyAbbreviation"; "MemberFrom"; "ListAs"; "ProxyName"].

Definition DivisionDto_fields : list string :=
  ["DivisionId"; "Date"; "Title"; "AyeCount"; "NoCount";
   "Ayes"; "AyeTellers"; "Noes"; "NoTellers"; "NoVoteRecorded"].

(** [_filter_dataclass_fields] on a dictionary: [dataclass_fields] is
    [__dataclass_fields__] of the type, or [None] for a type that is not
    a dataclass. *)
Definition _filter_dataclass_fields {V} (data : list (string * V))
    (dataclass_fields : option (list string)) : list (string * V) :=
  match dataclass_fields with
  | None => data
  | Some allowed_fields =>
      List.filter (fun kv => is_field (fst kv) allowed_fields) data
  end.

(** [AttributeError], as the message of a decoding error. *)
Definition AttributeError : exn := DecodeError "AttributeError".

(** A [MemberDto] instance as the constructor builds it: no field is
    checked against its annotation. *)
Record MemberObj : Type := mk_MemberObj {
  obj_MemberId : json;
  obj_Name : json;
  obj_Party : json;
  obj_SubParty : json;
  obj_PartyColour : json;
  obj_PartyAbbreviation : json;
  obj_MemberFrom : json;
  obj_ListAs : json;
  obj_ProxyName : json
}.

Definition or_null (o : option json) : json :=
  match o with Some j => j | None => JNull end.

(** The constructor of [MemberDto], called with keyword arguments: an
    unknown keyword or a missing required field is a [TypeError]; an
    optional field defaults to [None]. *)
Definition make_MemberDto (kwargs : list (string * json)) : Result MemberObj :=
  if negb (forallb (fun kv => is_field (fst kv) MemberDto_fields) kwargs)
  then Raise TypeError
  else
    match SDict.get kwargs "MemberId", SDict.get kwargs "Name",
          SDict.get kwargs "Party" with
    | Some i, Some n, Some p =>
        Ok (mk_MemberObj i n p
              (or_null (SDict.get kwargs "SubParty"))
              (or_null (SDict.get kwargs "PartyColour"))
              (or_null (SDict.get kwargs "PartyAbbreviation"))
              (or_null (SDict.get kwargs "MemberFrom"))
              (or_null (SDict.get kwargs "ListAs"))
              (or_null (SDict.get kwargs "ProxyName")))
    | _, _, _ => Raise TypeError
    end.

(** Line 158: one element of a category list. *)
Definition parse_member (member_data : json) : Result MemberObj :=
  match member_data with
  | JObj fields =>
      make_MemberDto (_filter_dataclass_fields fields (Some MemberDto_fields))
  | _ => Raise AttributeError
  end.

(** Lines 157-160: the list comprehension over a category value.
    Iterating a list yields its elements; iterating a dict or a string
    yields strings, which have no [items]; a number, a boolean and
    [None] cannot be iterated. *)
Definition parse_members (value : json) : Result (list MemberObj) :=
  match value with
  | JList xs => map_result parse_member xs
  | JObj [] => Ok []
  | JObj (_ :: _) => Raise AttributeError
  | JStr EmptyString => Ok []
  | JStr (String _ _) => Raise AttributeError
  | JNull | JBool _ | JInt _ => Raise TypeError
  end.

(** The values that [raw_data] holds while it is decoded. *)
Inductive pyval : Type :=
| PJson (j : json)
| PDatetime (d : datetime)
| PMembers (ms : list MemberObj).

(** A [DivisionDto] instance as the constructor builds it. *)
Record DivisionObj : Type := mk_DivisionObj {
  obj_DivisionId : pyval;
  obj_Date : pyval;
  obj_Title : pyval;
  obj_AyeCount : pyval;
  obj_NoCount : pyval;
  obj_Ayes : pyval;
  obj_AyeTellers : pyval;
  obj_Noes : pyval;
  obj_NoTellers : pyval;
  obj_NoVoteRecorded : pyval
}.

Definition or_empty (o : option pyval) : pyval :=
  match o with Some v => v | None => PMembers [] end.

(** The constructor of [DivisionDto], called with keyword arguments. *)
Definition make_DivisionDto (kwargs : list (string * pyval))
  : Result DivisionObj :=
  if negb (forallb (fun kv => is_field (fst kv) DivisionDto_fields) kwargs)
  then Raise TypeError
  else
    match SDict.get kwargs "DivisionId", SDict.get kwargs "Date",
          SDict.get kwargs "Title", SDict.get kwargs "AyeCount",
          SDict.get kwargs "NoCount" with
    | Some i, Some d, Some t, Some a, Some n =>
        Ok (mk_DivisionObj i d t a n
              (or_empty (SDict.get kwargs "Ayes"))
              (or_empty (SDict.get kwargs "AyeTellers"))
              (or_empty (SDict.get kwargs "Noes"))
              (or_empty (SDict.get kwargs "NoTellers"))
              (or_empty (SDict.get kwargs "NoVoteRecorded")))
    | _, _, _, _, _ => Raise TypeError
    end.

(** [s.replace(old, new)] for a one-character [old]. *)
Fixpoint replace_char (old : ascii) (new : string) (s : string) : string :=
  match s with
  | EmptyString => EmptyString
  | String c s' =>
      if Ascii.eqb c old then new +:+ replace_char old new s'
      else String c (replace_char old new s')
  end.

(** [ApiClient._deserialise_datetime]; [fromisoformat] is
    [datetime.fromisoformat] of the standard library. *)
Definition _deserialise_datetime (fromisoformat : string -> Result datetime)
    (date_string : string) : Result datetime :=
  let cleaned := replace_char "Z"%char "+00:00" date_string in
  fromisoformat cleaned.

(** Lines 151-152: the date of the document. *)
Definition parse_date (fromisoformat : string -> Result datetime)
    (raw_data : list (string * pyval)) : Result (list (string * pyval)) :=
  match SDict.get raw_data "Date" with
  | Some (PJson (JStr s)) =>
      match _deserialise_datetime fromisoformat s with
      | Ok d => Ok (SDict.set raw_data "Date" (PDatetime d))
      | Raise e => Raise e
      end
  | _ => Ok raw_data
  end.

(** Lines 156-162: one category of the document. A value that is not a
    JSON value can only be met under a key that was already decoded. *)
Definition parse_category (raw_data : list (string * pyval))
    (field : string) : Result (list (string * pyval)) :=
  let members :=
    match SDict.get raw_data field with
    | None => Ok []
    | Some (PJson j) => if truthy j then parse_members j else Ok []
    | Some (PDatetime _) => Raise TypeError
    | Some (PMembers []) => Ok []
    | Some (PMembers (_ :: _)) => Raise AttributeError
    end in
  match members with
  | Ok ms => Ok (SDict.set raw_data field (PMembers ms))
  | Raise e => Raise e
  end.

(** Lines 155-162: the loop over the five category fields. *)
Fixpoint parse_categories (fields : list string)
    (raw_data : list (string * pyval)) : Result (list (string * pyval)) :=
  match fields with
  | [] => Ok raw_data
  | field :: fields' =>
      match parse_category raw_data field with
      | Ok raw_data' => parse_categories fields' raw_data'
      | Raise e => Raise e
      end
  end.

Definition category_fields : list string :=
  ["Ayes"; "AyeTellers"; "Noes"; "NoTellers"; "NoVoteRecorded"].

(** [DataProcessor._parse_division_dto]. A document that is not an
    object has no [get]. *)
Definition _parse_division_dto (fromisoformat : string -> Result datetime)
    (raw_data : json) : Result DivisionObj :=
  match raw_data with
  | JObj fields =>
      let raw := map (fun kv => (fst kv, PJson (snd kv))) fields in
      match parse_date fromisoformat raw with
      | Raise e => Raise e
      | Ok raw1 =>
          match parse_categories category_fields raw1 with
          | Raise e => Raise e
          | Ok raw2 =>
              make_DivisionDto
                (_filter_dataclass_fields raw2 (Some DivisionDto_fields))
          end
      end
  | _ => Raise AttributeError
  end.

(** A sample document, with a field that no dataclass knows, a null
    category and two missing categories. *)
Definition json_member (id : Z) (name party : string) : json :=
  JObj [("MemberId", JInt id); ("Name", JStr name); ("Party", JStr party);
        ("PartyColour", JStr "ff0000")].

Definition json_sample : list (string * json) :=
  [("DivisionId", JInt 100); ("Date", JStr "2020-01-08T18:25:00Z");
   ("Title", JStr "Bill A"); ("AyeCount", JInt 1); ("NoCount", JInt 0);
   ("IsDeferred", JBool false);
   ("Ayes", JList [json_member 5 "Jo Smith" "X"]);
   ("Noes", JNull)].

(** A stand-in for [datetime.fromisoformat] that knows one timestamp. *)
Definition fromisoformat_sample (s : string) : Result datetime :=
  if String.eqb s "2020-01-08T18:25:00+00:00"
  then Ok (mk_datetime 2020 1 8 18 25 0 0 (Some 0))
  else Raise (DecodeError "ValueError").

(** *** The decoded document, read off the lookups *)

(** The members decoded for a category: none for a category that is
    absent or falsy. *)
Definition category_of (fields : list (string * json)) (field : string)
  : Result (list MemberObj) :=
  match SDict.get fields field with
  | None => Ok []
  | Some j => if truthy j then parse_members j else Ok []
  end.

(** The date of the decoded document: parsed when it is a string, passed
    through when it is anything else. *)
Definition date_of (fromisoformat : string → Result datetime)
    (fields : list (string * json)) : Result (option pyval) :=
  match SDict.get fields "Date" with
  | Some (JStr s) =>
      match _deserialise_datetime fromisoformat s with
      | Ok d => Ok (Some (PDatetime d))
      | Raise e => Raise e
      end
  | Some j => Ok (Some (PJson j))
  | None => Ok None
  end.

Definition decode_by_lookup (fromisoformat : string → Result datetime)
    (fields : list (string * json)) : Result DivisionObj :=
  match date_of fromisoformat fields with
  | Raise e => Raise e
  | Ok date =>
  match category_of fields "Ayes" with
  | Raise e => Raise e
  | Ok ayes =>
  match category_of fields "AyeTellers" with
  | Raise e => Raise e
  | Ok aye_tellers =>
  match category_of fields "Noes" with
  | Raise e => Raise e
  | Ok noes =>
  match category_of fields "NoTellers" with
  | Raise e => Raise e
  | Ok no_tellers =>
  match category_of fields "NoVoteRecorded" with
  | Raise e => Raise e
  | Ok absent =>
      match SDict.get fields "DivisionId", date, SDict.get fields "Title",
            SDict.get fields "AyeCount", SDict.get fields "NoCount" with
      | Some i, Some d, Some t, Some a, Some n =>
          Ok (mk_DivisionObj (PJson i) d (PJson t) (PJson a) (PJson n)
                (PMembers ayes) (PMembers aye_tellers) (PMembers noes)
                (PMembers no_tellers) (PMembers absent))
      | _, _, _, _, _ => Raise TypeError
      end
  end end end end end end.

Definition member_by_lookup (fields : list (string * json))
  : Result MemberObj :=
  match SDict.get fields "MemberId", SDict.get fields "Name",
        SDict.get fields "Party" with
  | Some i, Some n, Some p =>
      Ok (mk_MemberObj i n p
            (or_null (SDict.get fields "SubParty"))
            (or_null (SDict.get fields "PartyColour"))
            (or_null (SDict.get fields "PartyAbbreviation"))
            (or_null (SDict.get fields "MemberFrom"))
            (or_null (SDict.get fields "ListAs"))
            (or_null (SDict.get fields "ProxyName")))
  | _, _, _ => Raise TypeError
  end.

(** The category of a decoded document by the name of its field. *)
Definition category_field (obj : DivisionObj) (field : string) : pyval :=
  if String.eqb field "Ayes" then obj_Ayes obj
  else if String.eqb field "AyeTellers" then obj_AyeTellers obj
  else if String.eqb field "Noes" then obj_Noes obj
  else if String.eqb field "NoTellers" then obj_NoTellers obj
  else obj_NoVoteRecorded obj.

(** A category value that decodes to no member: absent or falsy. *)
Definition empty_category (value : option json) : bool :=
  match value with
  | None => true
  | Some j => negb (truthy j)
  end.

(** [old] does not occur in [s]. *)
Fixpoint no_char (old : ascii) (s : string) : bool :=
  match s with
  | EmptyString => true
  | String c s' => negb (Ascii.eqb c old) && no_char old s'
  end.

(** A member object decoded from a JSON value: an object with the three
    required fields, which are passed through as they are. *)
Definition decoded_member (x : json) (m : MemberObj) : Prop :=
  ∃ fields,
    x = JObj fields
    ∧ SDict.get fields "MemberId" = Some (obj_MemberId m)
    ∧ SDict.get fields "Name" = Some (obj_Name m)
    ∧ SDict.get fields "Party" = Some (obj_Party m)
    ∧ obj_PartyAbbreviation m
      = or_null (SDict.get fields "PartyAbbreviation").

(** [s'] holds the same outcomes as [s] for every division but [d]. *)
Definition same_votes_but (d : Z) (s s' : State) : Prop :=
  ∀ m d', d' ≠ d → stored_vote s' m d' = stored_vote s m d'.

(** * Properties *)

(** ** Dictionaries *)

Section DictFacts.
Context {V : Type}.
Implicit Types (d : list (Z * V)) (k : Z) (v : V).

Lemma get_set_eq d k v : Dict.get (Dict.set d k v) k = Some v.
Proof.
  induction d as [|[k' v'] d IH]; simpl.
  - by rewrite Z.eqb_refl.
  - destruct (k' =? k) eqn:E; simpl; rewrite E; [done | apply IH].
Qed.

Lemma get_set_ne d k k' v :
  k ≠ k' → Dict.get (Dict.set d k v) k' = Dict.get d k'.
Proof.
  intros Hne. induction d as [|[k0 v0] d IH]; simpl.
  - by apply Z.eqb_neq in Hne as ->.
  - destruct (k0 =? k) eqn:E; simpl; [|by rewrite IH].
    apply Z.eqb_eq in E as ->. by apply Z.eqb_neq in Hne as ->.
Qed.

Lemma elem_of_keys d k : k ∈ Dict.keys d ↔ is_Some (Dict.get d k).
Proof.
  unfold Dict.keys. induction d as [|[k' v'] d IH]; simpl.
  - split; [by intros ?%elem_of_nil | by intros [? ?]].
  - rewrite elem_of_cons, IH. destruct (k' =? k) eqn:E.
    + apply Z.eqb_eq in E. split; eauto.
    + apply Z.eqb_neq in E. split; [intros [?|?]; [congruence | done] | eauto].
Qed.

Lemma not_elem_of_keys d k : k ∉ Dict.keys d ↔ Dict.get d k = None.
Proof. rewrite elem_of_keys, eq_None_not_Some. done. Qed.

Lemma contains_true d k : Dict.contains d k = true ↔ is_Some (Dict.get d k).
Proof.
  unfold Dict.contains. destruct (Dict.get d k); split; eauto; try done.
Qed.

Lemma keys_set_old d k v :
  is_Some (Dict.get d k) → Dict.keys (Dict.set d k v) = Dict.keys d.
Proof.
  unfold Dict.keys. induction d as [|[k' v'] d IH]; simpl.
  - by intros [? ?].
  - destruct (k' =? k) eqn:E; simpl; [done|]. intros H. f_equal. by apply IH.
Qed.

Lemma keys_set_new d k v :
  Dict.get d k = None → Dict.keys (Dict.set d k v) = Dict.keys d ++ [k].
Proof.
  unfold Dict.keys. induction d as [|[k' v'] d IH]; simpl; [done|].
  destruct (k' =? k) eqn:E; simpl; [done|]. intros H. f_equal. by apply IH.
Qed.

Lemma elem_of_keys_set d k k' v :
  k' ∈ Dict.keys (Dict.set d k v) ↔ k' = k ∨ k' ∈ Dict.keys d.
Proof.
  rewrite !elem_of_keys. destruct (decide (k = k')) as [->|Hne].
  - rewrite get_set_eq. split; eauto.
  - rewrite get_set_ne by done.
    split; [eauto | intros [?|?]; [congruence | done]].
Qed.

Lemma NoDup_keys_set d k v :
  NoDup (Dict.keys d) → NoDup (Dict.keys (Dict.set d k v)).
Proof.
  intros Hnd. destruct (Dict.get d k) eqn:E.
  - by rewrite keys_set_old by eauto.
  - rewrite keys_set_new by done. apply NoDup_app.
    split_and!; [done | | apply NoDup_singleton].
    intros x Hx ->%list_elem_of_singleton. apply not_elem_of_keys in E. done.
Qed.

(** Two dictionaries with the same entries, inserted in different
    orders, answer every lookup alike. *)
Lemma get_Permutation d1 d2 k :
  NoDup (Dict.keys d1) → d1 ≡ₚ d2 → Dict.get d1 k = Dict.get d2 k.
Proof.
  intros Hnd Hp. revert Hnd.
  induction Hp as [|[k0 v0] d1 d2 Hp IH|[k1 v1] [k2 v2] d
                  |d1 d2 d3 Hp1 IH1 Hp2 IH2];
    intros Hnd; simpl.
  - done.
  - destruct (k0 =? k); [done|]. apply IH. by apply NoDup_cons in Hnd as [_ ?].
  - destruct (k2 =? k) eqn:E2, (k1 =? k) eqn:E1; try done.
    apply Z.eqb_eq in E1, E2. subst. unfold Dict.keys in Hnd. simpl in Hnd.
    apply NoDup_cons in Hnd as [Hn _]. exfalso. apply Hn. left.
  - rewrite IH1 by done. apply IH2. unfold Dict.keys in *. by rewrite <- Hp1.
Qed.
End DictFacts.

(** ** Relations that every operation of a run keeps *)

Section Preserve.
Variable R : State → State → Prop.
Hypothesis R_refl : ∀ s, R s s.
Hypothesis R_trans : ∀ s1 s2 s3, R s1 s2 → R s2 s3 → R s1 s3.

Lemma preserves_ret {A} (a : A) : preserves R (ret a).
Proof. intros s. apply R_refl. Qed.

Lemma preserves_raise {A} e : preserves R (@raise A e).
Proof. intros s. apply R_refl. Qed.

Lemma preserves_lift {A} (r : Result A) : preserves R (lift r).
Proof. intros s. apply R_refl. Qed.

Lemma preserves_get_state : preserves R get_state.
Proof. intros s. apply R_refl. Qed.

Lemma preserves_bind {A B} (m : M A) (k : A → M B) :
  preserves R m → (∀ a, preserves R (k a)) → preserves R (bind m k).
Proof.
  intros Hm Hk s. unfold bind. specialize (Hm s).
  destruct (m s) as [[a|e] s']; simpl in *; [|done].
  eapply R_trans; [done | apply Hk].
Qed.

Lemma preserves_try_except {A} (m : M A) (h : exn → M A) :
  preserves R m → (∀ e, preserves R (h e)) → preserves R (try_except m h).
Proof.
  intros Hm Hh s. unfold try_except. specialize (Hm s).
  destruct (m s) as [[a|e] s']; simpl in *; [done|].
  eapply R_trans; [done | apply Hh].
Qed.

Lemma preserves_for_each {A} (body : A → M unit) xs :
  (∀ x, preserves R (body x)) → preserves R (for_each body xs).
Proof.
  intros Hb. induction xs as [|x xs IH]; simpl.
  - apply preserves_ret.
  - apply preserves_bind; [apply Hb | intros _; apply IH].
Qed.

Lemma preserves_category d ms v :
  (∀ mem, preserves R (add_member_vote d v mem)) →
  preserves R (_add_member_vote_category d ms v).
Proof.
  intros Hmem. destruct ms; [apply preserves_ret|].
  by apply preserves_for_each.
Qed.

Lemma preserves_aggregate_votes dto :
  (∀ v mem, preserves R (add_member_vote (DivisionId dto) v mem)) →
  preserves R (aggregate_votes dto).
Proof.
  intros Hmem. unfold aggregate_votes.
  repeat (apply preserves_bind;
          [apply preserves_category, Hmem | intros _]).
  apply preserves_category, Hmem.
Qed.

(** It is enough that the three writes of the processor keep the
    relation: every method is built from them. *)
Hypothesis R_print : ∀ l, preserves R (print l).
Hypothesis R_store : ∀ dto, preserves R (store_division dto).
Hypothesis R_member : ∀ d v mem, preserves R (add_member_vote d v mem).

Lemma preserves_process_division api ds de no :
  preserves R (process_division api ds de no).
Proof.
  unfold process_division. apply preserves_bind.
  - unfold fetch_division. destruct (api no);
      [apply preserves_raise | apply preserves_raise | apply preserves_ret].
  - intros dto. apply preserves_bind; [apply preserves_lift|].
    intros [|]; [apply preserves_ret|].
    apply preserves_bind; [apply R_store | intros _].
    apply preserves_aggregate_votes. intros v mem. apply R_member.
Qed.

Lemma preserves_iteration api ds de no : preserves R (iteration api ds de no).
Proof.
  unfold iteration. apply preserves_bind; [apply R_print | intros _].
  apply preserves_try_except; [apply preserves_process_division|].
  intros []; apply R_print.
Qed.

Lemma preserves_read_divisions api : preserves R (read_divisions api).
Proof.
  unfold read_divisions. apply preserves_bind; [apply R_print | intros _].
  apply preserves_bind.
  - apply preserves_for_each. intros no. apply preserves_iteration.
  - intros _. apply preserves_bind; [apply preserves_get_state | intros s].
    apply preserves_bind; [apply R_print | intros _; apply R_print].
Qed.
End Preserve.

(** ** One member of one category *)

Lemma set_set {V} (d : list (Z * V)) k v v' :
  Dict.set (Dict.set d k v) k v' = Dict.set d k v'.
Proof.
  induction d as [|[k0 v0] d IH]; simpl.
  - by rewrite Z.eqb_refl.
  - destruct (k0 =? k) eqn:E; simpl; rewrite E; [done | by rewrite IH].
Qed.

Lemma add_member_vote_known s d v mem md :
  Dict.get (members s) (MemberId mem) = Some md →
  add_member_vote d v mem s = record_vote d v (MemberId mem) s.
Proof.
  intros H. unfold add_member_vote, bind, get_state, Dict.contains.
  by rewrite H.
Qed.

Lemma add_member_vote_blank s d v mem :
  Dict.get (members s) (MemberId mem) = None →
  split_maxsplit1 (Name mem) = [] →
  add_member_vote d v mem s = (Raise IndexError, s).
Proof.
  intros H Hsplit.
  unfold add_member_vote, bind, get_state, Dict.contains, create_member.
  by rewrite H, Hsplit.
Qed.

Lemma add_member_vote_new s d v mem first rest :
  Dict.get (members s) (MemberId mem) = None →
  split_maxsplit1 (Name mem) = first :: rest →
  add_member_vote d v mem s =
    (Ok tt,
     mk_State (divisions s)
       (Dict.set (members s) (MemberId mem) (new_member mem first rest [(d, v)]))
       (console s)).
Proof.
  intros H Hsplit.
  unfold add_member_vote, bind, get_state, Dict.contains, create_member.
  rewrite H, Hsplit. unfold record_vote. simpl.
  by rewrite get_set_eq, set_set.
Qed.

Lemma record_vote_duplicate s d v mp md existing :
  Dict.get (members s) mp = Some md →
  Dict.get (division_votes md) d = Some existing →
  record_vote d v mp s =
    (Ok tt,
     mk_State (divisions s) (members s)
       (console s ++ [Duplicate mp d v existing])).
Proof. intros H1 H2. unfold record_vote. by rewrite H1, H2. Qed.

Lemma record_vote_fresh s d v mp md :
  Dict.get (members s) mp = Some md →
  Dict.get (division_votes md) d = None →
  record_vote d v mp s =
    (Ok tt,
     mk_State (divisions s)
       (Dict.set (members s) mp
          (mk_MemberDat (member_id md) (first_name md) (surname md) (party md)
             (Dict.set (division_votes md) d v)))
       (console s)).
Proof. intros H1 H2. unfold record_vote. by rewrite H1, H2. Qed.

(** The three writes leave the division registry alone, except for the
    one that stores a division. *)
Lemma add_member_vote_divisions d v mem s :
  divisions (snd (add_member_vote d v mem s)) = divisions s.
Proof.
  destruct (Dict.get (members s) (MemberId mem)) as [md|] eqn:Hm.
  - rewrite (add_member_vote_known _ _ _ _ _ Hm).
    destruct (Dict.get (division_votes md) d) as [v0|] eqn:Hv.
    + by rewrite (record_vote_duplicate _ _ _ _ _ _ Hm Hv).
    + by rewrite (record_vote_fresh _ _ _ _ _ Hm Hv).
  - destruct (split_maxsplit1 (Name mem)) as [|first rest] eqn:Hs.
    + by rewrite add_member_vote_blank.
    + by rewrite (add_member_vote_new _ _ _ _ _ _ Hm Hs).
Qed.

Lemma aggregate_votes_divisions dto s :
  divisions (snd (aggregate_votes dto s)) = divisions s.
Proof.
  apply (preserves_aggregate_votes (λ s s', divisions s' = divisions s)).
  - done.
  - intros s1 s2 s3 H1 H2. congruence.
  - intros v mem s0. apply add_member_vote_divisions.
Qed.

(** *** C1 *)

(** C1, counterexample: when a second document carries division id 100
    again, the summary stored first (8 January, "Bill A") is replaced by
    the second one (9 January, "Bill B"), the votes of the second
    document are recorded, and nothing is reported. *)
Lemma duplicate_event_overwrites :
  let s1 := snd (iteration api_same_id DATE_START DATE_END 723 init) in
  let s2 := snd (iteration api_same_id DATE_START DATE_END 724 s1) in
  Dict.get (divisions s1) 100
    = Some (mk_DivisionDat 100 (naive 2020 1 8 18 25) "Bill A")
  ∧ Dict.get (divisions s2) 100
    = Some (mk_DivisionDat 100 (naive 2020 1 9 12 0) "Bill B")
  ∧ Dict.get (divisions (run api_same_id)) 100
    = Some (mk_DivisionDat 100 (naive 2020 1 9 12 0) "Bill B")
  ∧ stored_vote (run api_same_id) 6 100 = Some Aye
  ∧ filter (λ l, is_report l = true) (console (run api_same_id)) = [].
Proof. vm_compute. repeat split. Qed.

(** An admitted document is stored, then aggregated. *)
Lemma process_division_admitted api ds de no dto s :
  api no = Document dto →
  out_of_range (Date dto) ds de = Ok false →
  process_division api ds de no s
  = aggregate_votes dto (snd (store_division dto s)).
Proof.
  intros Hapi Hrange. unfold process_division, fetch_division, bind, lift.
  rewrite Hapi. simpl. by rewrite Hrange.
Qed.

(** C1, as the code has it: storing an admitted division never fails and
    is never skipped. Whatever the registry held under the division id
    before, it holds the date and title of this document afterwards;
    the store writes nothing to the console, and the vote categories of
    the document are then aggregated. *)
Theorem register_event_overwrites api ds de no dto s :
  api no = Document dto →
  out_of_range (Date dto) ds de = Ok false →
  let s1 := snd (store_division dto s) in
  let s2 := snd (process_division api ds de no s) in
  store_division dto s = (Ok tt, s1)
  ∧ process_division api ds de no s = aggregate_votes dto s1
  ∧ console s1 = console s
  ∧ members s1 = members s
  ∧ Dict.get (divisions s2) (DivisionId dto)
    = Some (mk_DivisionDat (DivisionId dto) (Date dto) (Title dto)).
Proof.
  intros Hapi Hrange s1 s2.
  assert (Hp : process_division api ds de no s = aggregate_votes dto s1).
  { by apply process_division_admitted. }
  split_and!; [done | done | done | done |].
  subst s2. rewrite Hp, aggregate_votes_divisions. subst s1. simpl.
  apply get_set_eq.
Qed.

Lemma register_event_overwrites_witness :
  Dict.get (divisions (snd (iteration api_same_id DATE_START DATE_END 723 init))) 100
    = Some (mk_DivisionDat 100 (naive 2020 1 8 18 25) "Bill A")
  ∧ Dict.get
      (divisions
         (snd (process_division api_same_id DATE_START DATE_END 724
                 (snd (iteration api_same_id DATE_START DATE_END 723 init)))))
      100
    = Some (mk_DivisionDat 100 (naive 2020 1 9 12 0) "Bill B").
Proof.
  split; [reflexivity|].
  apply (register_event_overwrites api_same_id DATE_START DATE_END 724
           (division 100 (naive 2020 1 9 12 0) "Bill B"
              [member 6 "Al Jones" "Y" None] [] [] [] [])
           (snd (iteration api_same_id DATE_START DATE_END 723 init)));
    reflexivity.
Defined.

(** ** The date filter *)

(** What line 67 computes for naive datetimes: the comparison of the full
    timestamps, time of day included. *)
Lemma out_of_range_naive d ds de :
  tzinfo d = None → tzinfo ds = None → tzinfo de = None →
  out_of_range d ds de =
    Ok (match lex_compare (fields d) (fields ds) with
        | Lt => true
        | _ => match lex_compare (fields d) (fields de) with
               | Gt => true
               | _ => false
               end
        end).
Proof.
  intros H1 H2 H3. unfold out_of_range, datetime_lt, datetime_gt, datetime_cmp.
  rewrite H1, H2, H3.
  destruct (lex_compare (fields d) (fields ds));
    destruct (lex_compare (fields d) (fields de)); reflexivity.
Qed.

(** An aware timestamp (one decoded from a string ending in "Z") cannot
    be compared with the naive bounds. *)
Lemma out_of_range_aware d ds de offset :
  tzinfo d = Some offset → tzinfo ds = None →
  out_of_range d ds de = Raise TypeError.
Proof.
  intros H1 H2. unfold out_of_range, datetime_lt, datetime_cmp.
  by rewrite H1, H2.
Qed.

(** Every time of day on the first day of the configured range passes. *)
Lemma start_day_admitted h mi sec us :
  0 ≤ h → 0 ≤ mi → 0 ≤ sec → 0 ≤ us →
  out_of_range (mk_datetime 2019 12 11 h mi sec us None) DATE_START DATE_END
  = Ok false.
Proof.
  intros Hh Hm Hs Hu. rewrite out_of_range_naive by done. simpl.
  destruct (Z.compare_spec h 0); [subst | lia | done].
  destruct (Z.compare_spec mi 0); [subst | lia | done].
  destruct (Z.compare_spec sec 0); [subst | lia | done].
  destruct (Z.compare_spec us 0); [done | lia | done].
Qed.

(** On the last day of the configured range, only midnight passes. *)
Lemma end_day_admitted_iff h mi sec us :
  0 ≤ h → 0 ≤ mi → 0 ≤ sec → 0 ≤ us →
  out_of_range (mk_datetime 2024 7 3 h mi sec us None) DATE_START DATE_END
  = Ok false
  ↔ h = 0 ∧ mi = 0 ∧ sec = 0 ∧ us = 0.
Proof.
  intros Hh Hm Hs Hu. rewrite out_of_range_naive by done. simpl.
  destruct (Z.compare_spec h 0); [subst | lia |]; [|split; [done | lia]].
  destruct (Z.compare_spec mi 0); [subst | lia |]; [|split; [done | lia]].
  destruct (Z.compare_spec sec 0); [subst | lia |]; [|split; [done | lia]].
  destruct (Z.compare_spec us 0); [subst | lia |]; [|split; [done | lia]].
  done.
Qed.

(** The day before the range and the day after it are rejected, whatever
    the time of day. *)
Lemma day_before_rejected h mi sec us :
  out_of_range (mk_datetime 2019 12 10 h mi sec us None) DATE_START DATE_END
  = Ok true.
Proof. by rewrite out_of_range_naive. Qed.

Lemma day_after_rejected h mi sec us :
  out_of_range (mk_datetime 2024 7 4 h mi sec us None) DATE_START DATE_END
  = Ok true.
Proof. by rewrite out_of_range_naive. Qed.

(** *** C2 *)

(** C2, the code at the failing inputs: a division dated on the last day
    of the range, at noon, is filtered out although its date equals
    [DATE_END]; and a division inside the range whose timestamp is aware
    is dropped with a [TypeError]. *)
Theorem last_day_event_rejected :
  (year (naive 2024 7 3 12 0), month (naive 2024 7 3 12 0),
   day (naive 2024 7 3 12 0))
  = (year DATE_END, month DATE_END, day DATE_END)
  ∧ out_of_range (naive 2024 7 3 12 0) DATE_START DATE_END = Ok true
  ∧ divisions (run api_last_day) = []
  ∧ members (run api_last_day) = []
  ∧ divisions (run api_utc) = []
  ∧ ErrorLine 723 TypeError ∈ console (run api_utc).
Proof.
  split_and!; try (by vm_compute).
  vm_compute. apply list_elem_of_In. do 2 right. left. reflexivity.
Qed.

(** ** Failures *)

(** A division that cannot be fetched or decoded, or that the filter
    rejects or cannot compare, leaves both registries as they were. *)
Lemma failure_before_registration api ds de no s :
  (api no = NotAvailable
   ∨ (∃ msg, api no = Malformed msg)
   ∨ (∃ dto, api no = Document dto
             ∧ out_of_range (Date dto) ds de ≠ Ok false)) →
  divisions (snd (iteration api ds de no s)) = divisions s
  ∧ members (snd (iteration api ds de no s)) = members s.
Proof.
  unfold iteration, try_except, bind, print, process_division, fetch_division,
    bind, lift, raise, ret.
  intros [H|[[msg H]|(dto & H & Hr)]]; rewrite H; simpl; [done | done |].
  destruct (out_of_range (Date dto) ds de) as [[|]|[]]; simpl; done.
Qed.

(** *** C3 *)

(** C3, the code at the failing input: processing division 723 fails
    with an [IndexError] on the empty name, after the division was stored
    and the first member's vote recorded; both stay in the registries. *)
Theorem failed_event_stays_registered :
  let s := run api_blank_name in
  filter (λ l, is_report l = true) (console s) = [ErrorLine 723 IndexError]
  ∧ Dict.get (divisions s) 100
    = Some (mk_DivisionDat 100 (naive 2020 1 8 18 25) "Bill A")
  ∧ stored_vote s 5 100 = Some Aye
  ∧ Dict.keys (members s) = [5].
Proof. vm_compute. repeat split. Qed.

(** *** C4 *)

(** C4: when the member already has an outcome for the division, a
    second assignment returns normally, leaves both registries as they
    were (so the stored outcome stays), and writes exactly one console
    line naming the member, the division, the new and the existing
    outcome; the rest of the category is then processed from there. *)
Theorem duplicate_vote_keeps_existing s d v mem rest md existing :
  Dict.get (members s) (MemberId mem) = Some md →
  Dict.get (division_votes md) d = Some existing →
  let s' := mk_State (divisions s) (members s)
              (console s ++ [Duplicate (MemberId mem) d v existing]) in
  add_member_vote d v mem s = (Ok tt, s')
  ∧ stored_vote s' (MemberId mem) d = Some existing
  ∧ _add_member_vote_category d (mem :: rest) v s
    = for_each (add_member_vote d v) rest s'.
Proof.
  intros Hm Hv s'.
  assert (Hstep : add_member_vote d v mem s = (Ok tt, s')).
  { rewrite (add_member_vote_known _ _ _ _ _ Hm).
    apply (record_vote_duplicate _ _ _ _ _ _ Hm Hv). }
  split_and!; [done | |].
  - unfold stored_vote. subst s'. simpl. by rewrite Hm.
  - simpl. unfold bind. by rewrite Hstep.
Qed.

(** The example of the specification: Aye, then No, for member 5 in
    division 100. *)
Lemma duplicate_vote_keeps_existing_witness :
  let s := snd (add_member_vote 100 Aye (member 5 "Jo Smith" "X" None) init) in
  let s' := snd (add_member_vote 100 No (member 5 "Jo Smith" "X" None) s) in
  stored_vote s 5 100 = Some Aye
  ∧ stored_vote s' 5 100 = Some Aye
  ∧ add_member_vote 100 No (member 5 "Jo Smith" "X" None) s
    = (Ok tt, mk_State (divisions s) (members s) [Duplicate 5 100 No Aye]).
Proof.
  intros s s'.
  destruct (duplicate_vote_keeps_existing s 100 No
              (member 5 "Jo Smith" "X" None) []
              (mk_MemberDat 5 "Jo" "Smith" "X" [(100, Aye)]) Aye)
    as (H1 & H2 & _); [reflexivity | reflexivity |].
  split_and!; [reflexivity | | exact H1].
  subst s'. rewrite H1. exact H2.
Defined.

(** ** Member identity *)

(** *** C7 *)

(** C7, counterexample: a record whose abbreviation is present but empty
    is stored under its full party name, not under the abbreviation. *)
Lemma empty_abbreviation_not_stored :
  let mem := member 5 "Jo Smith" "Labour" (Some EmptyString) in
  let s := snd (add_member_vote 100 Aye mem init) in
  PartyAbbreviation mem = Some EmptyString
  ∧ party <$> Dict.get (members s) 5 = Some "Labour"
  ∧ party <$> Dict.get (members s) 5 ≠ PartyAbbreviation mem.
Proof. vm_compute. split_and!; [done | done | discriminate]. Qed.

(** C7, as the code has it: the member record created for a new member
    stores the abbreviation when it is present and not empty, and the
    full party name when the abbreviation is absent or empty. *)
Theorem stored_party_prefers_abbreviation s d v mem first rest :
  Dict.get (members s) (MemberId mem) = None →
  split_maxsplit1 (Name mem) = first :: rest →
  ∃ md,
    Dict.get (members (snd (add_member_vote d v mem s))) (MemberId mem) = Some md
    ∧ (∀ a, PartyAbbreviation mem = Some a → a ≠ EmptyString → party md = a)
    ∧ (PartyAbbreviation mem = Some EmptyString → party md = Party mem)
    ∧ (PartyAbbreviation mem = None → party md = Party mem).
Proof.
  intros Hm Hs. rewrite (add_member_vote_new _ _ _ _ _ _ Hm Hs). simpl.
  eexists. split; [apply get_set_eq|]. simpl. split_and!.
  - intros a -> Ha. by destruct a.
  - by intros ->.
  - by intros ->.
Qed.

Lemma stored_party_prefers_abbreviation_witness :
  party <$> Dict.get
      (members (snd (add_member_vote 100 Aye
                       (member 5 "Jo Smith" "Labour" (Some "Lab")) init))) 5
    = Some "Lab"
  ∧ party <$> Dict.get
      (members (snd (add_member_vote 100 Aye
                       (member 6 "Al Jones" "Labour" None) init))) 6
    = Some "Labour".
Proof.
  split.
  - destruct (stored_party_prefers_abbreviation init 100 Aye
                (member 5 "Jo Smith" "Labour" (Some "Lab")) "Jo" ["Smith"])
      as (md & Hget & H & _); [reflexivity | reflexivity |].
    change (MemberId _) with 5 in Hget. rewrite Hget.
    simpl. f_equal. by apply H.
  - destruct (stored_party_prefers_abbreviation init 100 Aye
                (member 6 "Al Jones" "Labour" None) "Al" ["Jones"])
      as (md & Hget & _ & _ & H); [reflexivity | reflexivity |].
    change (MemberId _) with 6 in Hget. rewrite Hget.
    simpl. f_equal. by apply H.
Defined.

(** *** C6 *)

Lemma keeps_identities_refl s : keeps_identities s s.
Proof. intros m md H. by exists md. Qed.

Lemma keeps_identities_trans s1 s2 s3 :
  keeps_identities s1 s2 → keeps_identities s2 s3 → keeps_identities s1 s3.
Proof.
  intros H12 H23 m md H.
  destruct (H12 m md H) as (md2 & Hg2 & (?&?&?)).
  destruct (H23 m md2 Hg2) as (md3 & Hg3 & (?&?&?)).
  exists md3. split; [done|]. unfold same_identity. split_and!; congruence.
Qed.

Lemma add_member_vote_keeps_identities d v mem s :
  keeps_identities s (snd (add_member_vote d v mem s)).
Proof.
  destruct (Dict.get (members s) (MemberId mem)) as [md0|] eqn:Hm.
  - rewrite (add_member_vote_known _ _ _ _ _ Hm).
    destruct (Dict.get (division_votes md0) d) as [v0|] eqn:Hv.
    + rewrite (record_vote_duplicate _ _ _ _ _ _ Hm Hv).
      intros m md H. by exists md.
    + rewrite (record_vote_fresh _ _ _ _ _ Hm Hv). intros m md H. simpl.
      destruct (decide (MemberId mem = m)) as [<-|Hne].
      * rewrite get_set_eq. eexists. split; [done|].
        assert (md = md0) as -> by congruence. done.
      * rewrite get_set_ne by done. by exists md.
  - destruct (split_maxsplit1 (Name mem)) as [|first rest] eqn:Hs.
    + rewrite add_member_vote_blank by done. apply keeps_identities_refl.
    + rewrite (add_member_vote_new _ _ _ _ _ _ Hm Hs). intros m md H. simpl.
      rewrite get_set_ne by congruence. by exists md.
Qed.

Lemma write_keeps_identities s s' : write s s' → keeps_identities s s'.
Proof.
  intros [l s0|dto s0|d v mem s0].
  - intros m md H. by exists md.
  - intros m md H. by exists md.
  - apply add_member_vote_keeps_identities.
Qed.

Lemma writes_keep_identities s s' : rtc write s s' → keeps_identities s s'.
Proof.
  induction 1 as [s|s1 s2 s3 Hw _ IH].
  - apply keeps_identities_refl.
  - eapply keeps_identities_trans; [by apply write_keeps_identities | done].
Qed.

(** Every method of the processor is a sequence of such writes. *)
Lemma iteration_writes api ds de no s :
  rtc write s (snd (iteration api ds de no s)).
Proof.
  apply (preserves_iteration (rtc write)).
  - intros s0. apply rtc_refl.
  - intros s1 s2 s3. apply rtc_trans.
  - intros l s0. apply rtc_once. constructor.
  - intros dto s0. apply rtc_once. constructor.
  - intros d0 v0 mem0 s0. apply rtc_once. constructor.
Qed.

Lemma read_divisions_writes api s :
  rtc write s (snd (read_divisions api s)).
Proof.
  apply (preserves_read_divisions (rtc write)).
  - intros s0. apply rtc_refl.
  - intros s1 s2 s3. apply rtc_trans.
  - intros l s0. apply rtc_once. constructor.
  - intros dto s0. apply rtc_once. constructor.
  - intros d0 v0 mem0 s0. apply rtc_once. constructor.
Qed.

(** C6: when a member record has been processed, the registry holds a
    summary for its id. If the id was new, the summary carries the given
    name, surname and party of this record; if the id was known, the
    stored name and party are the ones it had. Whatever the run writes
    afterwards, for any member record, category or division, the stored
    name and party stay the same. *)
Theorem first_seen_wins s d v mem s1 :
  add_member_vote d v mem s = (Ok tt, s1) →
  ∃ md1,
    Dict.get (members s1) (MemberId mem) = Some md1
    ∧ (Dict.get (members s) (MemberId mem) = None →
       ∃ rest, split_maxsplit1 (Name mem) = first_name md1 :: rest
               ∧ surname md1 = match rest with r :: _ => r | [] => EmptyString end
               ∧ party md1 = py_or (PartyAbbreviation mem) (Party mem))
    ∧ (∀ md0, Dict.get (members s) (MemberId mem) = Some md0 →
       same_identity md0 md1)
    ∧ (∀ s2, rtc write s1 s2 →
       ∃ md2, Dict.get (members s2) (MemberId mem) = Some md2
              ∧ same_identity md1 md2).
Proof.
  intros Hstep.
  assert (Hk : keeps_identities s s1).
  { replace s1 with (snd (add_member_vote d v mem s)) by by rewrite Hstep.
    apply add_member_vote_keeps_identities. }
  assert (∃ md1, Dict.get (members s1) (MemberId mem) = Some md1
    ∧ (Dict.get (members s) (MemberId mem) = None →
       ∃ rest, split_maxsplit1 (Name mem) = first_name md1 :: rest
               ∧ surname md1 = match rest with r :: _ => r | [] => EmptyString end
               ∧ party md1 = py_or (PartyAbbreviation mem) (Party mem)))
    as (md1 & H1 & Hnew).
  { destruct (Dict.get (members s) (MemberId mem)) as [md0|] eqn:Hm.
    - destruct (Hk _ _ Hm) as (md1 & H1 & _). exists md1. by split.
    - destruct (split_maxsplit1 (Name mem)) as [|first rest] eqn:Hs.
      + rewrite add_member_vote_blank in Hstep by done. done.
      + rewrite (add_member_vote_new _ _ _ _ _ _ Hm Hs) in Hstep.
        injection Hstep as <-. simpl. rewrite get_set_eq.
        eexists. split; [done|]. intros _. by exists rest. }
  exists md1. split_and!; [done | done | |].
  - intros md0 Hm. destruct (Hk _ _ Hm) as (md1' & H1' & Hid). congruence.
  - intros s2 Hw. by apply (writes_keep_identities _ _ Hw).
Qed.

Lemma first_seen_wins_witness :
  let s1 := snd (add_member_vote 100 Aye (member 7 "Jo Smith" "X" None) init) in
  let s2 := snd (iteration api_two_names DATE_START DATE_END 724 s1) in
  ∃ md2, Dict.get (members s2) 7 = Some md2
         ∧ first_name md2 = "Jo" ∧ surname md2 = "Smith" ∧ party md2 = "X"
         ∧ division_votes md2 = [(100, Aye); (101, Aye)].
Proof.
  intros s1 s2.
  destruct (first_seen_wins init 100 Aye (member 7 "Jo Smith" "X" None) s1)
    as (md1 & H1 & _ & _ & Hlater); [reflexivity|].
  destruct (Hlater s2 (iteration_writes _ _ _ _ _)) as (md2 & H2 & Hf & Hs & Hp).
  exists md2. split; [exact H2|].
  assert (md1 = mk_MemberDat 7 "Jo" "Smith" "X" [(100, Aye)]) as ->.
  { vm_compute in H1. congruence. }
  split_and!; [exact Hf | exact Hs | exact Hp |].
  vm_compute in H2. by injection H2 as <-.
Defined.

(** ** Votes are only held for registered divisions *)

Lemma votes_registered_init : votes_registered init.
Proof. intros m md d H. done. Qed.

Lemma keeps_registered_refl d s : keeps_registered d s s.
Proof. by intros H1 H2. Qed.

Lemma keeps_registered_trans d s1 s2 s3 :
  keeps_registered d s1 s2 → keeps_registered d s2 s3 → keeps_registered d s1 s3.
Proof.
  intros H12 H23 Hi Hd. destruct (H12 Hi Hd) as [Hi2 E2].
  destruct H23 as [Hi3 E3]; [done | by rewrite E2 |].
  split; [done | congruence].
Qed.

Lemma add_member_vote_keeps_registered d v mem s :
  keeps_registered d s (snd (add_member_vote d v mem s)).
Proof.
  intros Hinv Hd. split; [|apply add_member_vote_divisions].
  intros m md d'. rewrite add_member_vote_divisions. revert m md d'.
  destruct (Dict.get (members s) (MemberId mem)) as [md0|] eqn:Hm.
  - rewrite (add_member_vote_known _ _ _ _ _ Hm).
    destruct (Dict.get (division_votes md0) d) as [v0|] eqn:Hv.
    + rewrite (record_vote_duplicate _ _ _ _ _ _ Hm Hv). apply Hinv.
    + rewrite (record_vote_fresh _ _ _ _ _ Hm Hv). simpl. intros m md d'.
      destruct (decide (MemberId mem = m)) as [<-|Hne].
      * rewrite get_set_eq. intros [= <-]. simpl.
        destruct (decide (d = d')) as [<-|Hd']; [done|].
        rewrite get_set_ne by done. apply (Hinv _ _ _ Hm).
      * rewrite get_set_ne by done. apply Hinv.
  - destruct (split_maxsplit1 (Name mem)) as [|first rest] eqn:Hs.
    + rewrite add_member_vote_blank by done. apply Hinv.
    + rewrite (add_member_vote_new _ _ _ _ _ _ Hm Hs). simpl. intros m md d'.
      destruct (decide (MemberId mem = m)) as [<-|Hne].
      * rewrite get_set_eq. intros [= <-]. simpl.
        destruct (d =? d') eqn:E; [|by intros [? ?]].
        by apply Z.eqb_eq in E as <-.
      * rewrite get_set_ne by done. apply Hinv.
Qed.

Lemma store_division_registered dto s :
  votes_registered s →
  votes_registered (snd (store_division dto s))
  ∧ is_Some (Dict.get (divisions (snd (store_division dto s))) (DivisionId dto)).
Proof.
  intros Hinv. simpl. split; [|rewrite get_set_eq; eauto].
  intros m md d Hm Hv. apply elem_of_keys, elem_of_keys_set. right.
  apply elem_of_keys. by eapply Hinv.
Qed.

Lemma process_division_registered api ds de no s :
  votes_registered s →
  votes_registered (snd (process_division api ds de no s)).
Proof.
  intros Hinv. unfold process_division, fetch_division, bind, lift.
  destruct (api no) as [|msg|dto]; simpl; [done | done |].
  destruct (out_of_range (Date dto) ds de) as [[|]|e]; simpl; [done | | done].
  destruct (store_division_registered dto s Hinv) as [Hinv1 Hd1].
  apply (preserves_aggregate_votes (keeps_registered (DivisionId dto))
           (keeps_registered_refl _) (keeps_registered_trans _) dto); [|done|done].
  intros v mem s0. apply add_member_vote_keeps_registered.
Qed.

Lemma registered_step_refl s : registered_step s s.
Proof. by intros H. Qed.

Lemma registered_step_trans s1 s2 s3 :
  registered_step s1 s2 → registered_step s2 s3 → registered_step s1 s3.
Proof. unfold registered_step. auto. Qed.

Lemma print_registered l s : registered_step s (snd (print l s)).
Proof. by intros H. Qed.

Lemma iteration_registered api ds de no s :
  registered_step s (snd (iteration api ds de no s)).
Proof.
  revert s.
  apply (preserves_bind registered_step registered_step_trans).
  { intros s. apply print_registered. }
  intros _.
  apply (preserves_try_except registered_step registered_step_trans).
  - intros s Hs. by apply process_division_registered.
  - intros e s. destruct e; apply print_registered.
Qed.

Lemma iterations_registered api ds de nos s :
  votes_registered s →
  votes_registered (snd (for_each (iteration api ds de) nos s)).
Proof.
  revert s.
  apply (preserves_for_each registered_step registered_step_refl
           registered_step_trans).
  intros no s. apply iteration_registered.
Qed.

Lemma run_registered api : votes_registered (run api).
Proof.
  unfold run, process_divisions.
  cut (preserves registered_step (read_divisions api)).
  { intros H. apply H, votes_registered_init. }
  unfold read_divisions.
  pose proof registered_step_refl as Hr.
  pose proof registered_step_trans as Ht.
  apply preserves_bind; [done | intros s; apply print_registered | intros _].
  apply preserves_bind; [done | | intros _].
  { apply preserves_for_each; [done | done |].
    intros no s. apply iteration_registered. }
  apply preserves_bind; [done | by apply preserves_get_state | intros s0].
  apply preserves_bind; [done | intros s; apply print_registered | intros _].
  intros s. apply print_registered.
Qed.

(** *** C10 *)

(** C10: every iteration of the run keeps the invariant that a division
    id under which some member holds a vote is a key of the division
    registry, whatever the document is and however its processing ends;
    so it holds after any number of iterations, and a division id that
    is not registered has no vote anywhere. *)
Theorem votes_only_for_registered_events api ds de nos s m md d :
  votes_registered s →
  let s' := snd (for_each (iteration api ds de) nos s) in
  Dict.get (members s') m = Some md →
  (is_Some (Dict.get (division_votes md) d) → is_Some (Dict.get (divisions s') d))
  ∧ (Dict.get (divisions s') d = None → stored_vote s' m d = None).
Proof.
  intros Hinv s' Hm.
  pose proof (iterations_registered api ds de nos s Hinv) as Hinv'.
  fold s' in Hinv'. split.
  - by apply (Hinv' m md d).
  - intros Hnone. unfold stored_vote. rewrite Hm.
    destruct (Dict.get (division_votes md) d) eqn:Hv; [|done].
    destruct (Hinv' m md d Hm) as [x Hx]; [eauto | congruence].
Qed.

Lemma votes_only_for_registered_events_witness :
  let s' := snd (for_each (iteration api_scenario DATE_START DATE_END)
                   [723; 724] init) in
  is_Some (Dict.get (divisions s') 100)
  ∧ stored_vote s' 5 101 = None.
Proof.
  intros s'.
  destruct (votes_only_for_registered_events api_scenario DATE_START DATE_END
              [723; 724] init 5 (mk_MemberDat 5 "Jo" "Smith" "X" [(100, Aye)]) 100)
    as [H1 _]; [apply votes_registered_init | reflexivity |].
  destruct (votes_only_for_registered_events api_scenario DATE_START DATE_END
              [723; 724] init 5 (mk_MemberDat 5 "Jo" "Smith" "X" [(100, Aye)]) 101)
    as [_ H2]; [apply votes_registered_init | reflexivity |].
  split; [apply H1; by eexists | apply H2; reflexivity].
Defined.

(** ** The order of the categories *)

Lemma for_each_app {A} (body : A → M unit) xs ys s :
  for_each body (xs ++ ys) s
  = match for_each body xs s with
    | (Ok _, s') => for_each body ys s'
    | (Raise e, s') => (Raise e, s')
    end.
Proof.
  revert s. induction xs as [|x xs IH]; intros s; simpl; [done|].
  unfold bind. destruct (body x s) as [[[]|e] s1]; [apply IH | done].
Qed.

Lemma for_each_map {A B} (body : B → M unit) (g : A → B) xs s :
  for_each body (map g xs) s = for_each (λ x, body (g x)) xs s.
Proof.
  revert s. induction xs as [|x xs IH]; intros s; simpl; [done|].
  unfold bind. destruct (body (g x) s) as [[[]|e] s1]; [apply IH | done].
Qed.

Lemma category_for_each d ms v s :
  _add_member_vote_category d ms v s
  = for_each (λ p, add_member_vote d p.2 p.1) (map (λ m, (m, v)) ms) s.
Proof.
  rewrite for_each_map. simpl. by destruct ms.
Qed.

(** The five calls are one pass over [category_votes]. *)
Lemma aggregate_votes_flat dto s :
  aggregate_votes dto s
  = for_each (λ p, add_member_vote (DivisionId dto) p.2 p.1)
      (category_votes dto) s.
Proof.
  unfold aggregate_votes, category_votes, bind.
  do 4 (rewrite for_each_app, <- category_for_each;
        match goal with
        | |- context [_add_member_vote_category ?d ?ms ?v ?s0] =>
            destruct (_add_member_vote_category d ms v s0) as [[[]|?] ?];
            [|done]
        end).
  by rewrite <- category_for_each.
Qed.

Lemma first_category_head dto m :
  first_category dto m = head (votes_of m (category_votes dto)).
Proof.
  assert (Hmap : ∀ ms v tl,
    head (votes_of m (map (λ x, (x, v)) ms ++ tl))
    = if listed m ms then Some v else head (votes_of m tl)).
  { intros ms v tl. induction ms as [|mem ms IH]; simpl; [done|].
    destruct (MemberId mem =? m); simpl; [done | apply IH]. }
  unfold first_category, category_votes. rewrite !Hmap.
  replace (map (λ m0, (m0, Missing)) (NoVoteRecorded dto))
    with (map (λ m0, (m0, Missing)) (NoVoteRecorded dto) ++ [])
    by apply app_nil_r.
  rewrite Hmap. done.
Qed.

(** What one processed member record does to the stored outcomes and to
    the console. *)
Lemma add_member_vote_stored d v mem s s1 :
  add_member_vote d v mem s = (Ok tt, s1) →
  match stored_vote s (MemberId mem) d with
  | Some existing =>
      s1 = mk_State (divisions s) (members s)
             (console s ++ [Duplicate (MemberId mem) d v existing])
  | None =>
      console s1 = console s
      ∧ stored_vote s1 (MemberId mem) d = Some v
      ∧ ∀ m, m ≠ MemberId mem → stored_vote s1 m d = stored_vote s m d
  end.
Proof.
  unfold stored_vote.
  destruct (Dict.get (members s) (MemberId mem)) as [md|] eqn:Hm.
  - rewrite (add_member_vote_known _ _ _ _ _ Hm).
    destruct (Dict.get (division_votes md) d) as [v0|] eqn:Hv.
    + rewrite (record_vote_duplicate _ _ _ _ _ _ Hm Hv). by intros [= <-].
    + rewrite (record_vote_fresh _ _ _ _ _ Hm Hv). intros [= <-]. simpl.
      split_and!; [done | |].
      * rewrite get_set_eq. simpl. apply get_set_eq.
      * intros m Hne. by rewrite get_set_ne.
  - destruct (split_maxsplit1 (Name mem)) as [|first rest] eqn:Hs.
    + by rewrite add_member_vote_blank.
    + rewrite (add_member_vote_new _ _ _ _ _ _ Hm Hs). intros [= <-]. simpl.
      split_and!; [done | |].
      * rewrite get_set_eq. simpl. by rewrite Z.eqb_refl.
      * intros m Hne. by rewrite get_set_ne.
Qed.

(** One pass over a list of member records and outcomes: for every
    member, the outcome that ends up stored is the one it had, or else
    its first outcome in the list; every other listing of the member is
    reported against that outcome, in order. *)
Lemma pass_stored d l : ∀ s s',
  for_each (λ p, add_member_vote d p.2 p.1) l s = (Ok tt, s') →
  ∃ new,
    console s' = console s ++ new
    ∧ ∀ m,
        match stored_vote s m d with
        | Some w =>
            stored_vote s' m d = Some w
            ∧ filter (λ x, is_duplicate_for m d x = true) new
              = map (λ v, Duplicate m d v w) (votes_of m l)
        | None =>
            stored_vote s' m d = head (votes_of m l)
            ∧ filter (λ x, is_duplicate_for m d x = true) new
              = match votes_of m l with
                | [] => []
                | w :: later => map (λ v, Duplicate m d v w) later
                end
        end.
Proof.
  induction l as [|[mem v] l IH]; intros s s'; simpl.
  - intros [= <-]. exists []. split; [by rewrite app_nil_r|].
    intros m. by destruct (stored_vote s m d).
  - unfold bind.
    destruct (add_member_vote d v mem s) as [[[]|e] s1] eqn:Hstep; [|done].
    intros Hrest. destruct (IH _ _ Hrest) as (new' & Hc & Hall).
    pose proof (add_member_vote_stored _ _ _ _ _ Hstep) as H1.
    destruct (stored_vote s (MemberId mem) d) as [w0|] eqn:Hold.
    + subst s1. simpl in Hc.
      exists (Duplicate (MemberId mem) d v w0 :: new').
      split; [by rewrite Hc, <- app_assoc|].
      intros m. specialize (Hall m).
      change (stored_vote _ m d) with (stored_vote s m d) in Hall at 1.
      rewrite filter_cons. simpl.
      destruct (decide (MemberId mem = m)) as [<-|Hne].
      * rewrite Hold in *. rewrite !Z.eqb_refl. simpl.
        destruct Hall as [-> ->]. done.
      * apply Z.eqb_neq in Hne. rewrite Hne. simpl. done.
    + destruct H1 as (Hcons & Hnew & Hother).
      exists new'. split; [by rewrite Hc, Hcons|].
      intros m. specialize (Hall m).
      destruct (decide (MemberId mem = m)) as [<-|Hne].
      * rewrite Hold, Z.eqb_refl. rewrite Hnew in Hall. done.
      * rewrite Hother in Hall by done.
        apply Z.eqb_neq in Hne. by rewrite Hne.
Qed.

(** *** C5 *)

(** C5: when an admitted division has been aggregated and the member
    held no outcome for it before, the outcome stored for the member is
    the one of the first category that lists it, in the order Aye,
    AyeTeller, No, NoTeller, Missing; each further listing of the member
    in this division is reported on the console as a duplicate against
    that outcome, and a member listed nowhere gets no outcome. *)
Theorem first_category_wins api ds de no dto s s' m :
  api no = Document dto →
  out_of_range (Date dto) ds de = Ok false →
  process_division api ds de no s = (Ok tt, s') →
  stored_vote s m (DivisionId dto) = None →
  ∃ new,
    console s' = console s ++ new
    ∧ stored_vote s' m (DivisionId dto) = first_category dto m
    ∧ filter (λ x, is_duplicate_for m (DivisionId dto) x = true) new
      = match first_category dto m with
        | Some w =>
            map (λ v, Duplicate m (DivisionId dto) v w)
              (tail (votes_of m (category_votes dto)))
        | None => []
        end.
Proof.
  intros Hapi Hrange Hrun Hfresh.
  rewrite (process_division_admitted _ _ _ _ _ _ Hapi Hrange) in Hrun.
  rewrite aggregate_votes_flat in Hrun.
  destruct (pass_stored _ _ _ _ Hrun) as (new & Hc & Hall).
  exists new. split; [done|]. specialize (Hall m).
  change (stored_vote _ m (DivisionId dto))
    with (stored_vote s m (DivisionId dto)) in Hall at 1.
  rewrite Hfresh in Hall. destruct Hall as [Hs Hf].
  rewrite first_category_head. split; [done|]. rewrite Hf.
  by destruct (votes_of m (category_votes dto)).
Qed.

Lemma first_category_wins_witness :
  let s' := snd (process_division api_two_categories DATE_START DATE_END 723 init) in
  stored_vote s' 5 100 = Some Aye
  ∧ console s' = [Duplicate 5 100 No Aye; Duplicate 5 100 Missing Aye].
Proof.
  intros s'.
  destruct (first_category_wins api_two_categories DATE_START DATE_END 723
              (division 100 (naive 2020 1 8 18 25) "Bill A"
                 [member 5 "Jo Smith" "X" None] []
                 [member 5 "Jo Smith" "X" None]
                 [member 6 "Al Jones" "Y" None]
                 [member 5 "Jo Smith" "X" None])
              init s' 5)
    as (new & Hc & Hs & Hf);
    [reflexivity | reflexivity | reflexivity | reflexivity |].
  split; [exact Hs | reflexivity].
Defined.

(** ** The matrix file *)

Lemma map_result_ext {A B} (f g : A → Result B) xs :
  (∀ x, f x = g x) → map_result f xs = map_result g xs.
Proof.
  intros Hfg. induction xs as [|x xs IH]; simpl; [done|].
  by rewrite Hfg, IH.
Qed.

Lemma map_result_total {A B} (f : A → Result B) (dflt : B) xs :
  (∀ x, x ∈ xs → ∃ y, f x = Ok y) →
  map_result f xs = Ok (map (λ x, ok_or dflt (f x)) xs).
Proof.
  induction xs as [|x xs IH]; intros Hok; simpl; [done|].
  destruct (Hok x) as [y Hy]; [left|]. rewrite Hy, IH; [done|].
  intros x' Hx'. apply Hok. by right.
Qed.

Lemma elem_of_sorted x xs : x ∈ sorted xs ↔ x ∈ xs.
Proof. unfold sorted. by rewrite merge_sort_Permutation. Qed.

Lemma sorted_Permutation xs ys : xs ≡ₚ ys → sorted xs = sorted ys.
Proof.
  intros Hp. unfold sorted. apply (Sorted_unique Z.le).
  - apply Sorted_merge_sort; apply _.
  - apply Sorted_merge_sort; apply _.
  - by rewrite !merge_sort_Permutation.
Qed.

Lemma StronglySorted_le_lt (xs : list Z) :
  StronglySorted Z.le xs → NoDup xs → StronglySorted Z.lt xs.
Proof.
  induction 1 as [|x xs Hs IH Hall]; intros Hnd; constructor.
  - apply IH. by apply NoDup_cons in Hnd as [_ ?].
  - apply NoDup_cons in Hnd as [Hx _].
    apply Forall_forall. intros y Hy.
    assert (x ≤ y) by (by eapply Forall_forall in Hall).
    assert (x ≠ y) by (intros ->; done). lia.
Qed.

(** [sorted] returns the elements of its argument in ascending order. *)
Lemma sorted_ascending xs :
  NoDup xs → StronglySorted Z.lt (sorted xs) ∧ sorted xs ≡ₚ xs.
Proof.
  intros Hnd. split; [|apply merge_sort_Permutation].
  apply StronglySorted_le_lt.
  - apply StronglySorted_merge_sort; apply _.
  - unfold sorted. by rewrite merge_sort_Permutation.
Qed.

(** A member of the column order is a key of the member registry, so
    line 66 never raises. *)
Lemma vote_cell_total members division mp :
  mp ∈ mp_ids members →
  ∃ m, Dict.get members mp = Some m
       ∧ vote_cell members division mp
         = Ok (str (int_of_Vote
                      match Dict.get (division_votes m) (division_id division) with
                      | Some v => v
                      | None => Missing
                      end)).
Proof.
  unfold mp_ids. rewrite elem_of_sorted, elem_of_keys. intros [m Hm].
  exists m. split; [done|]. unfold vote_cell. by rewrite Hm.
Qed.

(** A key of the row order is a key of the division registry, so line 53
    never raises, and the row has its four fixed fields and one cell per
    column. *)
Lemma row_fields_total divisions members key :
  key ∈ sorted (Dict.keys divisions) →
  ∃ division,
    Dict.get divisions key = Some division
    ∧ row_fields divisions members key
      = Ok ([str (division_id division); strftime_ymd (date division);
             str (division_id division); bill_name division]
            ++ map (λ mp, ok_or EmptyString (vote_cell members division mp))
                 (mp_ids members)).
Proof.
  rewrite elem_of_sorted, elem_of_keys. intros [division Hd].
  exists division. split; [done|]. unfold row_fields. rewrite Hd.
  rewrite (map_result_total _ EmptyString); [done|].
  intros mp Hmp. destruct (vote_cell_total members division mp Hmp) as (m & _ & ->).
  eauto.
Qed.

(** [write_dat_file] always produces its table: the header and one row
    per key of the row order. *)
Lemma dat_table_total divisions members :
  dat_table divisions members
  = Ok (header_fields members
        :: map (λ key, ok_or [] (row_fields divisions members key))
             (sorted (Dict.keys divisions))).
Proof.
  unfold dat_table. rewrite (map_result_total _ []); [done|].
  intros key Hkey.
  destruct (row_fields_total divisions members key Hkey) as (division & _ & ->).
  eauto.
Qed.

Lemma map_result_ext_in {A B} (f g : A → Result B) xs :
  (∀ x, x ∈ xs → f x = g x) → map_result f xs = map_result g xs.
Proof.
  induction xs as [|x xs IH]; intros Hfg; simpl; [done|].
  rewrite Hfg by left. rewrite IH; [done|].
  intros x' Hx'. apply Hfg. by right.
Qed.

(** A permutation of a dictionary holds the same entries. *)
Lemma Permutation_same_entries {V} (d d' : list (Z * V)) :
  NoDup (Dict.keys d) → d ≡ₚ d' → same_entries eq d d'.
Proof.
  intros Hnd Hp. split.
  - unfold Dict.keys. by rewrite Hp.
  - intros k v Hk. exists v. split; [|done].
    by rewrite <- (get_Permutation d d' k Hnd Hp).
Qed.

(** The table depends on the registries only through their sorted keys,
    the division records and the outcomes that the members hold. *)
Lemma dat_table_ext divisions members divisions' members' :
  same_entries eq divisions divisions' →
  same_entries same_votes members members' →
  dat_table divisions members = dat_table divisions' members'.
Proof.
  intros [Hkd Hd] [Hkm Hm].
  assert (Hids : mp_ids members = mp_ids members')
    by by apply sorted_Permutation.
  unfold dat_table, header_fields.
  rewrite <- (sorted_Permutation _ _ Hkd), <- Hids.
  rewrite (map_result_ext_in (row_fields divisions members)
             (row_fields divisions' members')); [done|].
  intros key [dv Hdv]%elem_of_sorted%elem_of_keys.
  destruct (Hd _ _ Hdv) as (dv' & Hdv' & <-).
  unfold row_fields. rewrite Hdv, Hdv', <- Hids.
  rewrite (map_result_ext_in (vote_cell members dv)
             (vote_cell members' dv)); [done|].
  intros mp [m Hmp]%elem_of_sorted%elem_of_keys.
  destruct (Hm _ _ Hmp) as (m' & Hmp' & Hv).
  unfold vote_cell. by rewrite Hmp, Hmp', Hv.
Qed.

(** *** C8 *)

(** C8: the matrix file is always produced, and in the row of the i-th
    division of the row order, the cell under the j-th member of the
    column order is the code of the outcome stored for that member and
    that division, and -9 when none is stored. *)
Theorem default_fill divisions members i j key mp :
  sorted (Dict.keys divisions) !! i = Some key →
  mp_ids members !! j = Some mp →
  ∃ division m table row,
    Dict.get divisions key = Some division
    ∧ Dict.get members mp = Some m
    ∧ dat_table divisions members = Ok table
    ∧ table !! S i = Some row
    ∧ row !! (4 + j)%nat
      = Some match Dict.get (division_votes m) (division_id division) with
             | Some v => str (int_of_Vote v)
             | None => "-9"
             end.
Proof.
  intros Hi Hj.
  destruct (row_fields_total divisions members key) as (division & Hd & Hrow).
  { by eapply list_elem_of_lookup_2. }
  destruct (vote_cell_total members division mp) as (m & Hm & Hcell).
  { by eapply list_elem_of_lookup_2. }
  exists division, m. eexists. eexists.
  split_and!; [done | done | apply dat_table_total | |].
  - simpl. rewrite list_lookup_fmap, Hi. simpl. by rewrite Hrow.
  - simpl. rewrite list_lookup_fmap, Hj. simpl. rewrite Hcell. simpl.
    by destruct (Dict.get (division_votes m) (division_id division)).
Qed.

Lemma default_fill_witness :
  let s := run api_late_member in
  ∃ table row,
    dat_table (divisions s) (members s) = Ok table
    ∧ table !! 1%nat = Some row
    ∧ row !! 5%nat = Some "-9".
Proof.
  intros s.
  destruct (default_fill (divisions s) (members s) 0 1 100 6)
    as (division & m & table & row & Hd & Hm & Ht & Hr & Hc);
    [reflexivity | reflexivity |].
  exists table, row. split; [exact Ht|]. split; [exact Hr|].
  vm_compute in Hd. vm_compute in Hm.
  injection Hd as <-. injection Hm as <-. exact Hc.
Defined.

(** *** C9 *)

(** C9: the data rows of the matrix file follow the keys of the division
    registry in ascending order, the vote columns follow the keys of the
    member registry in ascending order, and registries that hold the
    same divisions and the same outcomes, entered in any other order,
    give the same file. *)
Theorem deterministic_ordering divisions members divisions' members' :
  NoDup (Dict.keys divisions) → NoDup (Dict.keys members) →
  same_entries eq divisions divisions' →
  same_entries same_votes members members' →
  ∃ header rows row_ids column_ids,
    dat_table divisions members = Ok (header :: rows)
    ∧ dat_table divisions' members' = Ok (header :: rows)
    ∧ header = ["rowid"; "date"; "voteno"; "Bill"]
               ++ map (λ mp_id, "mpid" +:+ str mp_id) column_ids
    ∧ StronglySorted Z.lt column_ids
    ∧ column_ids ≡ₚ Dict.keys members
    ∧ Forall2 (λ key row, ∃ division,
                 Dict.get divisions key = Some division
                 ∧ take 4 row
                   = [str (division_id division); strftime_ymd (date division);
                      str (division_id division); bill_name division])
        row_ids rows
    ∧ StronglySorted Z.lt row_ids
    ∧ row_ids ≡ₚ Dict.keys divisions.
Proof.
  intros Hnd Hnm Hed Hem.
  destruct (sorted_ascending _ Hnd) as [Hsd Hsdp].
  destruct (sorted_ascending _ Hnm) as [Hsm Hsmp].
  eexists _, _, (sorted (Dict.keys divisions)), (mp_ids members).
  split_and!; [apply dat_table_total | | done | done | done | | done | done].
  - rewrite <- dat_table_total. symmetry. by apply dat_table_ext.
  - apply Forall2_fmap_r, Forall_Forall2_diag, Forall_forall.
    intros key Hkey.
    destruct (row_fields_total divisions members key Hkey)
      as (division & Hd & Hrow).
    exists division. split; [done|]. simpl. by rewrite Hrow.
Qed.

(** Members 3, 1, 2 and divisions 20, 10, entered in that order and in
    ascending order; member 3 voted in both divisions. *)
Lemma deterministic_ordering_witness :
  ∃ rows,
    dat_table [plain_division 20; plain_division 10]
      [plain_member 3 [(20, Aye); (10, No)]; plain_member 1 [];
       plain_member 2 []]
    = Ok (["rowid"; "date"; "voteno"; "Bill"; "mpid1"; "mpid2"; "mpid3"]
          :: rows)
    ∧ dat_table [plain_division 10; plain_division 20]
        [plain_member 1 []; plain_member 2 [];
         plain_member 3 [(10, No); (20, Aye)]]
      = Ok (["rowid"; "date"; "voteno"; "Bill"; "mpid1"; "mpid2"; "mpid3"]
            :: rows)
    ∧ map (take 1) rows = [["10"]; ["20"]].
Proof.
  destruct (deterministic_ordering
              [plain_division 20; plain_division 10]
              [plain_member 3 [(20, Aye); (10, No)]; plain_member 1 [];
               plain_member 2 []]
              [plain_division 10; plain_division 20]
              [plain_member 1 []; plain_member 2 [];
               plain_member 3 [(10, No); (20, Aye)]])
    as (header & rows & row_ids & column_ids & H1 & H2 & _).
  - apply (bool_decide_unpack _). by vm_compute.
  - apply (bool_decide_unpack _). by vm_compute.
  - apply Permutation_same_entries; [|apply Permutation_swap].
    apply (bool_decide_unpack _). by vm_compute.
  - split.
    + etrans; [apply Permutation_swap|].
      apply Permutation_skip, Permutation_swap.
    + intros k v Hk. cbn -[Z.eqb] in Hk.
      destruct (Z.eqb_spec 3 k) as [<-|_];
        [|destruct (Z.eqb_spec 1 k) as [<-|_];
          [|destruct (Z.eqb_spec 2 k) as [<-|_]; [|done]]];
        injection Hk as <-; (eexists; split; [reflexivity|]);
        [|by intros d..].
      intros d. cbn -[Z.eqb].
      destruct (Z.eqb_spec 20 d), (Z.eqb_spec 10 d); try reflexivity. lia.
  - exists rows. pose proof H1 as Hv. vm_compute in Hv.
    injection Hv as <- <-.
    split_and!; [exact H1 | exact H2 | reflexivity].
Defined.

(** ** The registries of a run *)

Lemma store_division_wf dto s : wf_step s (snd (store_division dto s)).
Proof.
  intros (Hd & Hm & Hkd & Hkm). split_and!; simpl; [|done| |done].
  - by apply NoDup_keys_set.
  - intros k dv. destruct (decide (DivisionId dto = k)) as [<-|Hne].
    + rewrite get_set_eq. by intros [= <-].
    + rewrite get_set_ne by done. apply Hkd.
Qed.

Lemma add_member_vote_wf d v mem s :
  wf_step s (snd (add_member_vote d v mem s)).
Proof.
  intros (Hd & Hm & Hkd & Hkm).
  split_and!; [by rewrite add_member_vote_divisions | |
               by rewrite add_member_vote_divisions |].
  - destruct (Dict.get (members s) (MemberId mem)) as [md0|] eqn:Hg.
    + rewrite (add_member_vote_known _ _ _ _ _ Hg).
      destruct (Dict.get (division_votes md0) d) as [v0|] eqn:Hv.
      * by rewrite (record_vote_duplicate _ _ _ _ _ _ Hg Hv).
      * rewrite (record_vote_fresh _ _ _ _ _ Hg Hv). by apply NoDup_keys_set.
    + destruct (split_maxsplit1 (Name mem)) as [|first rest] eqn:Hs.
      * by rewrite add_member_vote_blank.
      * rewrite (add_member_vote_new _ _ _ _ _ _ Hg Hs). by apply NoDup_keys_set.
  - destruct (Dict.get (members s) (MemberId mem)) as [md0|] eqn:Hg.
    + rewrite (add_member_vote_known _ _ _ _ _ Hg).
      destruct (Dict.get (division_votes md0) d) as [v0|] eqn:Hv.
      * by rewrite (record_vote_duplicate _ _ _ _ _ _ Hg Hv).
      * rewrite (record_vote_fresh _ _ _ _ _ Hg Hv). simpl. intros k md.
        destruct (decide (MemberId mem = k)) as [<-|Hne].
        -- rewrite get_set_eq. intros [= <-]. simpl. by apply Hkm.
        -- rewrite get_set_ne by done. apply Hkm.
    + destruct (split_maxsplit1 (Name mem)) as [|first rest] eqn:Hs.
      * by rewrite add_member_vote_blank.
      * rewrite (add_member_vote_new _ _ _ _ _ _ Hg Hs). simpl. intros k md.
        destruct (decide (MemberId mem = k)) as [<-|Hne].
        -- rewrite get_set_eq. by intros [= <-].
        -- rewrite get_set_ne by done. apply Hkm.
Qed.

Lemma run_wf api : registries_wf (run api).
Proof.
  unfold run, process_divisions.
  apply (preserves_read_divisions wf_step).
  - by intros s H.
  - unfold wf_step. auto.
  - by intros l s H.
  - intros dto s. apply store_division_wf.
  - intros d v mem s. apply add_member_vote_wf.
  - split_and!; [apply NoDup_nil_2 | apply NoDup_nil_2 | done | done].
Qed.

(** The matrix file of a run always exists. *)
Lemma write_dat_file_total divisions members :
  ∃ text, write_dat_file divisions members = Ok text.
Proof.
  unfold write_dat_file. rewrite dat_table_total. eauto.
Qed.

(** For the registries of a run, the [rowid] fields of the data rows are
    the division ids in strictly ascending order, and the column headers
    are the member ids in strictly ascending order. *)
Lemma run_table_ordering api :
  ∃ header rows,
    dat_table (divisions (run api)) (members (run api)) = Ok (header :: rows)
    ∧ drop 4 header
      = map (λ mp_id, "mpid" +:+ str mp_id) (mp_ids (members (run api)))
    ∧ StronglySorted Z.lt (mp_ids (members (run api)))
    ∧ Forall2 (λ key row, head row = Some (str key))
        (sorted (Dict.keys (divisions (run api)))) rows
    ∧ StronglySorted Z.lt (sorted (Dict.keys (divisions (run api)))).
Proof.
  destruct (run_wf api) as (Hd & Hm & Hkd & _).
  eexists _, _. split_and!; [apply dat_table_total | done | | |].
  - by apply sorted_ascending.
  - apply Forall2_fmap_r, Forall_Forall2_diag, Forall_forall.
    intros key Hkey.
    destruct (row_fields_total (divisions (run api)) (members (run api)) key Hkey)
      as (dv & Hg & Hrow).
    simpl. rewrite Hrow. simpl. by rewrite (Hkd _ _ Hg).
  - by apply sorted_ascending.
Qed.

(** The end-to-end scenario of the specification. *)
Example end_to_end_scenario :
  let s := run api_scenario in
  Dict.keys (divisions s) = [100]
  ∧ Dict.keys (members s) = [5; 6]
  ∧ (division_votes <$> Dict.get (members s) 5) = Some [(100, Aye)]
  ∧ (division_votes <$> Dict.get (members s) 6) = Some [(100, NoTeller)]
  ∧ dat_table (divisions s) (members s)
    = Ok [["rowid"; "date"; "voteno"; "Bill"; "mpid5"; "mpid6"];
          ["100"; "2020-01-08"; "100"; "Bill A"; "2"; "5"]].
Proof. vm_compute. repeat split. Qed.

(** * Further properties of the run *)

(** ** The loop catches every exception *)

Lemma iteration_returns api ds de no s :
  fst (iteration api ds de no s) = Ok tt.
Proof.
  unfold iteration, bind, try_except. simpl.
  destruct (process_division _ _ _ _ _) as [[[]|e] s1]; [done|].
  by destruct e.
Qed.

Lemma for_each_returns {A} (body : A → M unit) xs s :
  (∀ x s0, fst (body x s0) = Ok tt) → fst (for_each body xs s) = Ok tt.
Proof.
  intros Hb. revert s. induction xs as [|x xs IH]; intros s; simpl; [done|].
  unfold bind. specialize (Hb x s).
  destruct (body x s) as [[[]|e] s1]; simpl in Hb; [apply IH | done].
Qed.

(** The state after [read_divisions]: the iterations over the configured
    range, then the two summary lines. *)
Lemma read_divisions_state api s :
  let s0 := snd (print (Fetching DIVISION_START (DIVISION_END - 1)) s) in
  let s1 := snd (for_each (iteration api DATE_START DATE_END)
                   (seqZ DIVISION_START (DIVISION_END - DIVISION_START)) s0) in
  read_divisions api s
  = (Ok tt,
     mk_State (divisions s1) (members s1)
       (console s1 ++ [Processed (length (divisions s1));
                       Tracked (length (members s1))])).
Proof.
  intros s0 s1. unfold read_divisions.
  set (nos := seqZ DIVISION_START (DIVISION_END - DIVISION_START)) in *.
  set (body := iteration api DATE_START DATE_END) in *.
  pose proof (for_each_returns body nos s0
                (iteration_returns api DATE_START DATE_END)) as Hok.
  unfold bind, print, get_state. cbv beta iota.
  change (mk_State (divisions s) (members s)
            (console s ++ [Fetching DIVISION_START (DIVISION_END - 1)]))
    with s0.
  subst s1. destruct (for_each body nos s0) as [[[]|e] s1]; [|done].
  cbn [snd divisions members console]. by rewrite <- app_assoc.
Qed.

(** X1: a run never aborts. Whatever the API answers and whatever the
    documents hold, [process_divisions] returns normally: every exception
    raised while a division is fetched, decoded, filtered or aggregated
    is caught inside its iteration. *)
Theorem run_never_raises api s :
  ∃ s', process_divisions api s = (Ok tt, s').
Proof.
  unfold process_divisions. eexists. apply read_divisions_state.
Qed.

(** ** Skipped divisions *)

(** X2: a division that cannot be fetched or decoded, whose date cannot
    be compared, or whose date is outside the range, changes neither
    registry; the iteration prints the progress line and then one report
    line for a failure, nothing for a filtered division. *)
Theorem skipped_division_leaves_registries api ds de no s tail :
  skip_lines api ds de no = Some tail →
  iteration api ds de no s
  = (Ok tt,
     mk_State (divisions s) (members s) (console s ++ Progress no :: tail)).
Proof.
  unfold skip_lines, iteration, try_except, bind, print, process_division,
    fetch_division, bind, lift, raise, ret, report.
  destruct (api no) as [|msg|dto]; simpl.
  - intros [= <-]. by rewrite <- app_assoc.
  - intros [= <-]. by rewrite <- app_assoc.
  - destruct (out_of_range (Date dto) ds de) as [[|]|e]; simpl; [| done |].
    + by intros [= <-].
    + intros [= <-]. destruct e; simpl; by rewrite <- app_assoc.
Qed.

Lemma skipped_division_leaves_registries_witness :
  iteration api_scenario DATE_START DATE_END 724
    (snd (iteration api_scenario DATE_START DATE_END 723 init))
  = (Ok tt,
     mk_State
       (divisions (snd (iteration api_scenario DATE_START DATE_END 723 init)))
       (members (snd (iteration api_scenario DATE_START DATE_END 723 init)))
       [Progress 723; Progress 724])
  ∧ iteration api_utc DATE_START DATE_END 723 init
    = (Ok tt, mk_State [] [] [Progress 723; ErrorLine 723 TypeError])
  ∧ iteration api_utc DATE_START DATE_END 724 init
    = (Ok tt, mk_State [] [] [Progress 724; DoesNotExist 724]).
Proof.
  split_and!.
  - rewrite (skipped_division_leaves_registries api_scenario DATE_START
               DATE_END 724
               (snd (iteration api_scenario DATE_START DATE_END 723 init)) [])
      by reflexivity.
    reflexivity.
  - apply (skipped_division_leaves_registries api_utc DATE_START DATE_END
             723 init [ErrorLine 723 TypeError]). reflexivity.
  - apply (skipped_division_leaves_registries api_utc DATE_START DATE_END
             724 init [DoesNotExist 724]). reflexivity.
Defined.

(** ** Every division number is tried once *)

Lemma adds_duplicates_refl s : adds_duplicates s s.
Proof. exists []. by rewrite app_nil_r. Qed.

Lemma adds_duplicates_trans s1 s2 s3 :
  adds_duplicates s1 s2 → adds_duplicates s2 s3 → adds_duplicates s1 s3.
Proof.
  intros (n1 & H1 & F1) (n2 & H2 & F2). exists (n1 ++ n2). split.
  - by rewrite H2, H1, <- app_assoc.
  - by apply Forall_app.
Qed.

Lemma add_member_vote_adds_duplicates d v mem s :
  adds_duplicates s (snd (add_member_vote d v mem s)).
Proof.
  destruct (Dict.get (members s) (MemberId mem)) as [md0|] eqn:Hm.
  - rewrite (add_member_vote_known _ _ _ _ _ Hm).
    destruct (Dict.get (division_votes md0) d) as [v0|] eqn:Hv.
    + rewrite (record_vote_duplicate _ _ _ _ _ _ Hm Hv). simpl.
      eexists. split; [done|]. by constructor.
    + rewrite (record_vote_fresh _ _ _ _ _ Hm Hv).
      exists []. simpl. by rewrite app_nil_r.
  - destruct (split_maxsplit1 (Name mem)) as [|first rest] eqn:Hs.
    + rewrite add_member_vote_blank by done. apply adds_duplicates_refl.
    + rewrite (add_member_vote_new _ _ _ _ _ _ Hm Hs).
      exists []. simpl. by rewrite app_nil_r.
Qed.

(** The [try] block only ever prints duplicate reports. *)
Lemma process_division_adds_duplicates api ds de no s :
  adds_duplicates s (snd (process_division api ds de no s)).
Proof.
  unfold process_division, fetch_division, bind, lift.
  destruct (api no) as [|msg|dto]; simpl;
    [apply adds_duplicates_refl | apply adds_duplicates_refl |].
  destruct (out_of_range (Date dto) ds de) as [[|]|e]; simpl;
    [apply adds_duplicates_refl | | apply adds_duplicates_refl].
  eapply adds_duplicates_trans;
    [|apply (preserves_aggregate_votes adds_duplicates adds_duplicates_refl
               adds_duplicates_trans dto)].
  - exists []. simpl. by rewrite app_nil_r.
  - intros v mem s0. apply add_member_vote_adds_duplicates.
Qed.

Lemma progress_numbers_duplicates new :
  Forall (λ l, is_duplicate_line l = true) new → progress_numbers new = [].
Proof.
  induction 1 as [|l new Hl _ IH]; [done|].
  by destruct l.
Qed.

Lemma iteration_progress api ds de no s :
  progress_numbers (console (snd (iteration api ds de no s)))
  = progress_numbers (console s) ++ [no].
Proof.
  unfold iteration, bind, try_except. simpl.
  pose proof (process_division_adds_duplicates api ds de no
                (mk_State (divisions s) (members s) (console s ++ [Progress no])))
    as (new & Hc & Hnew).
  apply progress_numbers_duplicates in Hnew.
  destruct (process_division _ _ _ _ _) as [[[]|e] s1]; simpl in *.
  - rewrite Hc. unfold progress_numbers in *.
    by rewrite !omap_app, Hnew, app_nil_r.
  - assert (Hr : console (snd (match e with
                               | RequestException => print (DoesNotExist no)
                               | _ => print (ErrorLine no e)
                               end s1))
                 = console s1 ++ [report no e]) by by destruct e.
    rewrite Hr, Hc. unfold progress_numbers in *.
    rewrite !omap_app, Hnew, app_nil_r.
    replace (omap _ [report no e]) with (@nil Z) by by destruct e.
    by rewrite app_nil_r.
Qed.

Lemma iterations_progress api ds de nos s :
  progress_numbers (console (snd (for_each (iteration api ds de) nos s)))
  = progress_numbers (console s) ++ nos.
Proof.
  revert s. induction nos as [|no nos IH]; intros s; simpl.
  - by rewrite app_nil_r.
  - unfold bind. pose proof (iteration_returns api ds de no s) as Hok.
    pose proof (iteration_progress api ds de no s) as Hp.
    destruct (iteration api ds de no s) as [[[]|e] s1]; simpl in *; [|done].
    by rewrite IH, Hp, <- app_assoc.
Qed.

(** X3: a run tries every division number of the configured range
    exactly once and in ascending order, whatever happens to the
    divisions before it: the progress lines on the console are 723,
    724, ..., 1809. *)
Theorem run_tries_every_number api :
  progress_numbers (console (run api))
  = seqZ DIVISION_START (DIVISION_END - DIVISION_START)
  ∧ length (progress_numbers (console (run api))) = 1087%nat.
Proof.
  assert (H : progress_numbers (console (run api))
              = seqZ DIVISION_START (DIVISION_END - DIVISION_START)).
  { unfold run, process_divisions. rewrite read_divisions_state.
    cbn [snd console]. unfold progress_numbers at 1. rewrite omap_app.
    fold (progress_numbers
            (console (snd (for_each (iteration api DATE_START DATE_END)
               (seqZ DIVISION_START (DIVISION_END - DIVISION_START))
               (snd (print (Fetching DIVISION_START (DIVISION_END - 1))
                       init)))))).
    rewrite iterations_progress. cbn [omap]. by rewrite app_nil_r. }
  split; [done|]. rewrite H, length_seqZ. reflexivity.
Qed.

(** ** Names *)

Lemma skip_spaces_blank s :
  skip_spaces s = EmptyString ↔ all_space s = true.
Proof.
  induction s as [|c s IH]; simpl; [done|].
  destruct (isspace c); simpl; [done|]. split; discriminate.
Qed.

Lemma skip_spaces_word s : skip_spaces s = EmptyString ∨
                           starts_with_word (skip_spaces s) = true.
Proof.
  induction s as [|c s IH]; simpl; [by left|].
  destruct (isspace c) eqn:E; [done|]. right. simpl. by rewrite E.
Qed.

Lemma take_word_no_space s :
  no_space (fst (take_word s)) = true.
Proof.
  induction s as [|c s IH]; simpl; [done|].
  destruct (isspace c) eqn:E; [done|].
  destruct (take_word s) as [w r]. simpl in *. by rewrite E.
Qed.

Lemma take_word_nonempty s :
  starts_with_word s = true → fst (take_word s) ≠ EmptyString.
Proof.
  destruct s as [|c s]; simpl; [done|].
  destruct (isspace c); [done|]. by destruct (take_word s).
Qed.

(** The split finds no word exactly in a name that is all whitespace. *)
Lemma split_blank_iff s :
  split_maxsplit1 s = [] ↔ all_space s = true.
Proof.
  rewrite <- skip_spaces_blank. unfold split_maxsplit1.
  destruct (skip_spaces s) as [|c s1] eqn:E; [done|].
  destruct (take_word (String c s1)) as [w r].
  destruct (skip_spaces r); split; discriminate.
Qed.

(** What the split returns otherwise: one word, and perhaps a remainder
    that begins with a word. *)
Lemma split_words s first rest :
  split_maxsplit1 s = first :: rest →
  first ≠ EmptyString
  ∧ no_space first = true
  ∧ (rest = [] ∨ ∃ r, rest = [r] ∧ starts_with_word r = true).
Proof.
  unfold split_maxsplit1.
  destruct (skip_spaces_word s) as [->|Hw]; [done|].
  destruct (skip_spaces s) as [|c s1] eqn:E; [done|].
  pose proof (take_word_no_space (String c s1)) as Hns.
  pose proof (take_word_nonempty (String c s1) Hw) as Hne.
  destruct (take_word (String c s1)) as [w r]. simpl in Hns, Hne.
  destruct (skip_spaces_word r) as [Hr|Hr].
  - rewrite Hr. intros [= <- <-]. split_and!; [done | done | by left].
  - destruct (skip_spaces r) as [|c' r'] eqn:E'; [done|].
    intros [= <- <-]. split_and!; [done | done | right; eauto].
Qed.


(** ** Stored outcomes *)

(** The outcome stored for any member and division after one member
    record was handled: what was stored stays, and the only new outcome
    is the one of this record, when the record was processed. *)
Lemma stored_vote_step d v mem s m' d' :
  stored_vote (snd (add_member_vote d v mem s)) m' d'
  = match stored_vote s m' d' with
    | Some w => Some w
    | None =>
        if (m' =? MemberId mem) && (d' =? d)
           && is_ok (fst (add_member_vote d v mem s))
        then Some v else None
    end.
Proof.
  unfold stored_vote.
  destruct (Dict.get (members s) (MemberId mem)) as [md0|] eqn:Hm.
  - rewrite (add_member_vote_known _ _ _ _ _ Hm).
    destruct (Dict.get (division_votes md0) d) as [v0|] eqn:Hv.
    + rewrite (record_vote_duplicate _ _ _ _ _ _ Hm Hv). simpl.
      destruct (Z.eqb_spec m' (MemberId mem)) as [->|Hne].
      * rewrite Hm. destruct (Z.eqb_spec d' d) as [->|Hd].
        -- by rewrite Hv.
        -- by destruct (Dict.get _ d').
      * destruct (Dict.get (members s) m') as [md|]; [|done].
        by destruct (Dict.get (division_votes md) d').
    + rewrite (record_vote_fresh _ _ _ _ _ Hm Hv). simpl.
      destruct (Z.eqb_spec m' (MemberId mem)) as [->|Hne].
      * rewrite get_set_eq, Hm. simpl.
        destruct (Z.eqb_spec d' d) as [->|Hd].
        -- by rewrite get_set_eq, Hv.
        -- rewrite get_set_ne by done. by destruct (Dict.get _ d').
      * rewrite get_set_ne by done.
        destruct (Dict.get (members s) m') as [md|]; [|done].
        by destruct (Dict.get (division_votes md) d').
  - destruct (split_maxsplit1 (Name mem)) as [|first rest] eqn:Hs.
    + rewrite add_member_vote_blank by done. simpl.
      rewrite andb_false_r.
      destruct (Dict.get (members s) m') as [md|]; [|done].
      by destruct (Dict.get (division_votes md) d').
    + rewrite (add_member_vote_new _ _ _ _ _ _ Hm Hs). simpl.
      destruct (Z.eqb_spec m' (MemberId mem)) as [->|Hne].
      * rewrite get_set_eq, Hm. simpl.
        destruct (Z.eqb_spec d d') as [->|Hd].
        -- by rewrite Z.eqb_refl.
        -- by destruct (Z.eqb_spec d' d) as [->|].
      * rewrite get_set_ne by done.
        destruct (Dict.get (members s) m') as [md|]; [|done].
        by destruct (Dict.get (division_votes md) d').
Qed.

Lemma keeps_votes_refl s : keeps_votes s s.
Proof. by intros m d v H. Qed.

Lemma keeps_votes_trans s1 s2 s3 :
  keeps_votes s1 s2 → keeps_votes s2 s3 → keeps_votes s1 s3.
Proof. unfold keeps_votes. eauto. Qed.

Lemma write_keeps_votes s s' : write s s' → keeps_votes s s'.
Proof.
  intros [l s0|dto s0|d v mem s0] m' d' w H; [done | done |].
  by rewrite stored_vote_step, H.
Qed.

Lemma writes_keep_votes s s' : rtc write s s' → keeps_votes s s'.
Proof.
  induction 1 as [s|s1 s2 s3 Hw _ IH]; [apply keeps_votes_refl|].
  eapply keeps_votes_trans; [by apply write_keeps_votes | done].
Qed.

(** X5: an outcome, once stored for a member and a division, is never
    changed and never removed by anything the run does afterwards,
    whichever records, categories and divisions follow. *)
Theorem stored_votes_never_change s s' m d v :
  rtc write s s' →
  stored_vote s m d = Some v →
  stored_vote s' m d = Some v.
Proof. intros Hw. by apply writes_keep_votes. Qed.

Lemma stored_votes_never_change_witness :
  let s := snd (iteration api_scenario DATE_START DATE_END 723 init) in
  let s' := snd (iteration api_same_id DATE_START DATE_END 723 s) in
  stored_vote s 5 100 = Some Aye ∧ stored_vote s' 5 100 = Some Aye.
Proof.
  intros s s'. split; [reflexivity|].
  apply (stored_votes_never_change s s' 5 100 Aye);
    [apply iteration_writes | reflexivity].
Defined.

(** ** The registries only grow *)

Lemma write_keys_grow s s' :
  write s s' →
  Dict.keys (divisions s) `prefix_of` Dict.keys (divisions s')
  ∧ Dict.keys (members s) `prefix_of` Dict.keys (members s').
Proof.
  intros [l s0|dto s0|d v mem s0]; simpl.
  - done.
  - split; [|done].
    destruct (Dict.get (divisions s0) (DivisionId dto)) eqn:E.
    + by rewrite keys_set_old by eauto.
    + rewrite keys_set_new by done. by apply prefix_app_r.
  - rewrite add_member_vote_divisions. split; [done|].
    destruct (Dict.get (members s0) (MemberId mem)) as [md0|] eqn:Hm.
    + rewrite (add_member_vote_known _ _ _ _ _ Hm).
      destruct (Dict.get (division_votes md0) d) as [v0|] eqn:Hv.
      * by rewrite (record_vote_duplicate _ _ _ _ _ _ Hm Hv).
      * rewrite (record_vote_fresh _ _ _ _ _ Hm Hv). simpl.
        by rewrite keys_set_old by eauto.
    + destruct (split_maxsplit1 (Name mem)) as [|first rest] eqn:Hs.
      * by rewrite add_member_vote_blank.
      * rewrite (add_member_vote_new _ _ _ _ _ _ Hm Hs). simpl.
        rewrite keys_set_new by done. by apply prefix_app_r.
Qed.

(** X6: nothing is ever removed from either registry: through any
    sequence of writes of the run, the ids already registered stay
    registered, at the positions at which they were first inserted, and
    new ids are added after them. *)
Theorem registries_only_grow s s' :
  rtc write s s' →
  Dict.keys (divisions s) `prefix_of` Dict.keys (divisions s')
  ∧ Dict.keys (members s) `prefix_of` Dict.keys (members s').
Proof.
  induction 1 as [s|s1 s2 s3 Hw _ [IHd IHm]]; [done|].
  destruct (write_keys_grow _ _ Hw) as [Hd Hm].
  split; by etrans.
Qed.

Lemma registries_only_grow_witness :
  let s := snd (iteration api_scenario DATE_START DATE_END 723 init) in
  let s' := snd (iteration api_late_member DATE_START DATE_END 724 s) in
  Dict.keys (divisions s) = [100]
  ∧ [100] `prefix_of` Dict.keys (divisions s')
  ∧ [5; 6] `prefix_of` Dict.keys (members s').
Proof.
  intros s s'. split; [reflexivity|].
  apply (registries_only_grow s s'), iteration_writes.
Defined.

(** ** Invariants of a whole run *)

(** A property of the state that printing keeps, and that the [try]
    block of every iteration keeps, holds after the run. *)
Lemma run_invariant (P : State → Prop) api :
  (∀ l s, P s → P (snd (print l s))) →
  (∀ no s, P s → P (snd (process_division api DATE_START DATE_END no s))) →
  P init → P (run api).
Proof.
  intros Hprint Hproc Hinit. unfold run, process_divisions.
  cut (preserves (λ s s', P s → P s') (read_divisions api)).
  { intros H. by apply H. }
  unfold read_divisions.
  assert (Hr : ∀ s : State, P s → P s) by done.
  assert (Ht : ∀ s1 s2 s3 : State, (P s1 → P s2) → (P s2 → P s3) → P s1 → P s3)
    by auto.
  apply preserves_bind; [done | intros s; apply Hprint | intros _].
  apply preserves_bind; [done | | intros _].
  { apply preserves_for_each; [done | done |]. intros no.
    apply preserves_bind; [done | intros s; apply Hprint | intros _].
    apply preserves_try_except; [done | intros s; apply Hproc |].
    intros e s. destruct e; apply Hprint. }
  apply preserves_bind; [done | by apply preserves_get_state | intros s0].
  apply preserves_bind; [done | intros s; apply Hprint | intros _].
  intros s. apply Hprint.
Qed.

(** *** The reserved outcome is never stored *)

Lemma category_votes_not_both dto :
  Forall (λ p, p.2 ≠ Both) (category_votes dto).
Proof.
  unfold category_votes. rewrite !Forall_app, !Forall_fmap.
  split_and!; by apply Forall_true.
Qed.

Lemma pass_no_both d l s :
  Forall (λ p : MemberDto * Vote, p.2 ≠ Both) l → no_both s →
  no_both (snd (for_each (λ p, add_member_vote d p.2 p.1) l s)).
Proof.
  intros Hl. revert s. induction Hl as [|[mem v] l Hv _ IH]; intros s Hs;
    simpl; [done|].
  unfold bind.
  assert (H1 : no_both (snd (add_member_vote d v mem s))).
  { intros m' d' w. rewrite stored_vote_step.
    destruct (stored_vote s m' d') as [w0|] eqn:E.
    - intros [= <-]. by eapply Hs.
    - destruct (_ && _); [|done]. by intros [= <-]. }
  destruct (add_member_vote d v mem s) as [[[]|e] s1]; simpl in *; [|done].
  by apply IH.
Qed.

Lemma process_division_no_both api ds de no s :
  no_both s → no_both (snd (process_division api ds de no s)).
Proof.
  intros Hs. unfold process_division, fetch_division, bind, lift.
  destruct (api no) as [|msg|dto]; simpl; [done | done |].
  destruct (out_of_range (Date dto) ds de) as [[|]|e]; simpl; [done | | done].
  rewrite aggregate_votes_flat.
  apply pass_no_both; [apply category_votes_not_both | done].
Qed.

Lemma run_no_both api : no_both (run api).
Proof.
  apply run_invariant.
  - by intros l s H.
  - intros no s. apply process_division_no_both.
  - by intros m d v H.
Qed.

(** X7: the reserved outcome [Both] is never stored by a run, so every
    vote cell of the matrix file of a run is one of -9, 1, 2, 4, 5. *)
Theorem run_cells_are_vote_codes api :
  (∀ m d, stored_vote (run api) m d ≠ Some Both)
  ∧ ∃ header rows,
      dat_table (divisions (run api)) (members (run api))
      = Ok (header :: rows)
      ∧ Forall (λ row, Forall (λ cell, cell ∈ ["-9"; "1"; "2"; "4"; "5"])
                         (drop 4 row)) rows.
Proof.
  split; [intros m d Hv; by eapply run_no_both|].
  eexists _, _. split; [apply dat_table_total|].
  apply Forall_fmap, Forall_forall. intros key Hkey. simpl.
  destruct (row_fields_total (divisions (run api)) (members (run api)) key Hkey)
    as (dv & _ & ->).
  simpl. apply Forall_fmap, Forall_forall. intros mp Hmp. simpl.
  destruct (vote_cell_total (members (run api)) dv mp Hmp) as (md & Hmd & ->).
  simpl.
  destruct (Dict.get (division_votes md) (division_id dv)) as [w|] eqn:Hw.
  - assert (w ≠ Both).
    { apply (run_no_both api mp (division_id dv)). unfold stored_vote.
      by rewrite Hmd. }
    destruct w; try done; vm_compute; set_solver.
  - vm_compute. set_solver.
Qed.

(** *** Stored names *)

Lemma process_division_well_named api ds de no s :
  all_well_named s → all_well_named (snd (process_division api ds de no s)).
Proof.
  revert s.
  apply (preserves_process_division
           (λ s s', all_well_named s → all_well_named s')).
  - done.
  - auto.
  - by intros dto s H.
  - intros d v mem s Hs m md.
    destruct (Dict.get (members s) (MemberId mem)) as [md0|] eqn:Hm.
    + rewrite (add_member_vote_known _ _ _ _ _ Hm).
      destruct (Dict.get (division_votes md0) d) as [v0|] eqn:Hv.
      * rewrite (record_vote_duplicate _ _ _ _ _ _ Hm Hv). apply Hs.
      * rewrite (record_vote_fresh _ _ _ _ _ Hm Hv). simpl.
        destruct (decide (MemberId mem = m)) as [<-|Hne].
        -- rewrite get_set_eq. intros [= <-]. by apply (Hs _ _ Hm).
        -- rewrite get_set_ne by done. apply Hs.
    + destruct (split_maxsplit1 (Name mem)) as [|first rest] eqn:Hsp.
      * rewrite add_member_vote_blank by done. apply Hs.
      * rewrite (add_member_vote_new _ _ _ _ _ _ Hm Hsp). simpl.
        destruct (decide (MemberId mem = m)) as [<-|Hne].
        -- rewrite get_set_eq. intros [= <-].
           destruct (split_words _ _ _ Hsp) as (H1 & H2 & H3).
           split_and!; [done | done |]. simpl.
           destruct H3 as [->|(r & -> & Hr)]; [by left | by right].
        -- rewrite get_set_ne by done. apply Hs.
Qed.

(** X8: every member record in the registry of a run is filed under its
    own id, with a given name that is not empty and holds no whitespace,
    and a surname that is empty or begins with a character that is not
    whitespace. *)
Theorem run_members_well_named api m md :
  Dict.get (members (run api)) m = Some md →
  member_id md = m ∧ well_named md.
Proof.
  intros Hm. split.
  - destruct (run_wf api) as (_ & _ & _ & Hk). by apply Hk.
  - revert m md Hm. apply (run_invariant all_well_named).
    + by intros l s H.
    + intros no s. apply process_division_well_named.
    + by intros m md H.
Qed.

Lemma run_members_well_named_witness :
  ∃ md, Dict.get (members (run api_scenario)) 6 = Some md
        ∧ member_id md = 6 ∧ well_named md.
Proof.
  exists (mk_MemberDat 6 "Al" "Jones" "Y" [(100, NoTeller)]).
  split; [reflexivity|].
  apply (run_members_well_named api_scenario). reflexivity.
Defined.

(** *** Registered divisions passed the filter *)

Lemma process_division_in_range api ds de no s :
  all_in_range ds de s →
  all_in_range ds de (snd (process_division api ds de no s)).
Proof.
  intros Hs. unfold process_division, fetch_division, bind, lift.
  destruct (api no) as [|msg|dto]; simpl; [done | done |].
  destruct (out_of_range (Date dto) ds de) as [[|]|e] eqn:Hr; simpl;
    [done | | done].
  intros k dv. rewrite aggregate_votes_divisions. simpl.
  destruct (decide (DivisionId dto = k)) as [<-|Hne].
  - rewrite get_set_eq. by intros [= <-].
  - rewrite get_set_ne by done. apply Hs.
Qed.

Lemma out_of_range_naive_inv d ds de b :
  tzinfo ds = None → out_of_range d ds de = Ok b → tzinfo d = None.
Proof.
  intros Hds. unfold out_of_range, datetime_lt, datetime_cmp. rewrite Hds.
  by destruct (tzinfo d).
Qed.

(** X9: every division in the registry of a run is filed under its own
    id and passed the date filter: its timestamp is naive, not before
    [DATE_START] and not after [DATE_END]. *)
Theorem run_divisions_in_range api k dv :
  Dict.get (divisions (run api)) k = Some dv →
  division_id dv = k
  ∧ tzinfo (date dv) = None
  ∧ lex_compare (fields (date dv)) (fields DATE_START) ≠ Lt
  ∧ lex_compare (fields (date dv)) (fields DATE_END) ≠ Gt.
Proof.
  intros Hk.
  assert (Hr : out_of_range (date dv) DATE_START DATE_END = Ok false).
  { revert k dv Hk. apply (run_invariant (all_in_range DATE_START DATE_END)).
    - by intros l s H.
    - intros no s. apply process_division_in_range.
    - by intros k dv H. }
  assert (Htz : tzinfo (date dv) = None)
    by by apply (out_of_range_naive_inv _ DATE_START DATE_END false).
  split; [|split; [done|]].
  - destruct (run_wf api) as (_ & _ & Hkd & _). by apply Hkd.
  - rewrite out_of_range_naive in Hr by done.
    destruct (lex_compare (fields (date dv)) (fields DATE_START));
      destruct (lex_compare (fields (date dv)) (fields DATE_END));
      by try discriminate.
Qed.

Lemma run_divisions_in_range_witness :
  Dict.keys (divisions (run api_scenario)) = [100]
  ∧ ∃ dv, Dict.get (divisions (run api_scenario)) 100 = Some dv
          ∧ division_id dv = 100
          ∧ lex_compare (fields (date dv)) (fields DATE_END) ≠ Gt.
Proof.
  split; [reflexivity|].
  exists (mk_DivisionDat 100 (naive 2020 1 8 18 25) "Bill A").
  split; [reflexivity|].
  destruct (run_divisions_in_range api_scenario 100
              (mk_DivisionDat 100 (naive 2020 1 8 18 25) "Bill A"))
    as (H1 & _ & _ & H2); [reflexivity|].
  by split.
Defined.

(** *** An admitted division is aggregated completely *)

Lemma listed_members_votes dto : (category_votes dto).*1 = listed_members dto.
Proof.
  assert (H : ∀ (v : Vote) (l : list MemberDto),
             (map (λ m, (m, v)) l).*1 = l).
  { intros v l. induction l as [|x l IH]; [done|]. cbn. f_equal. exact IH. }
  unfold category_votes, listed_members. by rewrite !fmap_app, !H.
Qed.

Lemma aggregation_step_ok d v mem s :
  all_space (Name mem) = false → fst (add_member_vote d v mem s) = Ok tt.
Proof.
  intros Hb.
  destruct (Dict.get (members s) (MemberId mem)) as [md|] eqn:Hm.
  - rewrite (add_member_vote_known _ _ _ _ _ Hm).
    destruct (Dict.get (division_votes md) d) as [v0|] eqn:Hv.
    + by rewrite (record_vote_duplicate _ _ _ _ _ _ Hm Hv).
    + by rewrite (record_vote_fresh _ _ _ _ _ Hm Hv).
  - destruct (split_maxsplit1 (Name mem)) as [|first rest] eqn:Hs.
    + apply split_blank_iff in Hs. congruence.
    + by rewrite (add_member_vote_new _ _ _ _ _ _ Hm Hs).
Qed.

Lemma pass_complete d l : ∀ s,
  Forall (λ p : MemberDto * Vote, all_space (Name p.1) = false) l →
  ∃ s', for_each (λ p, add_member_vote d p.2 p.1) l s = (Ok tt, s')
        ∧ keeps_votes s s'
        ∧ Forall (λ p, is_Some (stored_vote s' (MemberId p.1) d)) l.
Proof.
  induction l as [|[mem v] l IH]; intros s Hl; simpl.
  - exists s. split_and!; [done | apply keeps_votes_refl | done].
  - apply Forall_cons in Hl as [Hmem Hl]. simpl in Hmem. unfold bind.
    pose proof (aggregation_step_ok d v mem s Hmem) as Hok.
    pose proof (stored_vote_step d v mem s) as Hstep.
    destruct (add_member_vote d v mem s) as [[[]|e] s1]; simpl in *; [|done].
    destruct (IH s1 Hl) as (s' & Hrun & Hkeep & Hall).
    exists s'. split_and!; [done | |].
    + intros m' d' w Hw. apply Hkeep. by rewrite Hstep, Hw.
    + constructor; [|done]. simpl.
      specialize (Hstep (MemberId mem) d). rewrite !Z.eqb_refl in Hstep.
      destruct (stored_vote s (MemberId mem) d) as [w|];
        simpl in Hstep; eexists; apply Hkeep; exact Hstep.
Qed.

(** X10: an admitted division in which every listed member has a name
    with at least one word is processed without an exception; afterwards
    the division is registered, and every listed member is registered
    and holds an outcome for it. *)
Theorem admitted_division_is_aggregated api ds de no dto s :
  api no = Document dto →
  out_of_range (Date dto) ds de = Ok false →
  Forall (λ mem, all_space (Name mem) = false) (listed_members dto) →
  ∃ s',
    process_division api ds de no s = (Ok tt, s')
    ∧ is_Some (Dict.get (divisions s') (DivisionId dto))
    ∧ Forall (λ mem,
         is_Some (Dict.get (members s') (MemberId mem))
         ∧ is_Some (stored_vote s' (MemberId mem) (DivisionId dto)))
        (listed_members dto).
Proof.
  intros Hapi Hrange Hnames.
  rewrite (process_division_admitted _ _ _ _ _ _ Hapi Hrange).
  rewrite <- listed_members_votes in Hnames. rewrite Forall_fmap in Hnames.
  destruct (pass_complete (DivisionId dto) (category_votes dto)
              (snd (store_division dto s)) Hnames) as (s' & Hrun & _ & Hall).
  exists s'. rewrite aggregate_votes_flat. split_and!; [done | |].
  - replace s' with (snd (aggregate_votes dto (snd (store_division dto s))))
      by by rewrite aggregate_votes_flat, Hrun.
    rewrite aggregate_votes_divisions. simpl. rewrite get_set_eq. eauto.
  - rewrite <- listed_members_votes. apply Forall_fmap.
    eapply Forall_impl; [exact Hall|]. intros [mem v] [w Hw]. simpl in *.
    split; [|eauto]. unfold stored_vote in Hw.
    destruct (Dict.get (members s') (MemberId mem)); [eauto | done].
Qed.

Lemma admitted_division_is_aggregated_witness :
  ∃ s',
    process_division api_scenario DATE_START DATE_END 723 init = (Ok tt, s')
    ∧ is_Some (stored_vote s' 5 100) ∧ is_Some (stored_vote s' 6 100).
Proof.
  destruct (admitted_division_is_aggregated api_scenario DATE_START DATE_END
              723
              (division 100 (naive 2020 1 8 18 25) "Bill A"
                 [member 5 "Jo Smith" "X" None] [] []
                 [member 6 "Al Jones" "Y" None] [])
              init)
    as (s' & Hrun & _ & Hall); [reflexivity | reflexivity | |].
  - repeat constructor.
  - exists s'. split; [exact Hrun|].
    apply Forall_cons in Hall as [[_ H5] Hall].
    apply Forall_cons in Hall as [[_ H6] _]. by split.
Defined.

(** * Further properties of the output files *)







(** X13: the metadata file does not depend on the order in which the
    members were inserted: registries that are permutations of each
    other give the same file. *)
Theorem txt_table_insertion_order members members' :
  NoDup (Dict.keys members) →
  members ≡ₚ members' →
  txt_table members = txt_table members'
  ∧ write_txt_file members = write_txt_file members'.
Proof.
  intros Hnd Hp.
  assert (H : txt_table members = txt_table members').
  { unfold txt_table.
    rewrite <- (sorted_Permutation (Dict.keys members) (Dict.keys members'))
      by (unfold Dict.keys; by rewrite Hp).
    rewrite (map_result_ext (member_fields members) (member_fields members'));
      [done|].
    intros key. unfold member_fields.
    by rewrite (get_Permutation members members' key Hnd Hp). }
  split; [done|]. unfold write_txt_file. by rewrite H.
Qed.

Lemma txt_table_insertion_order_witness :
  txt_table [plain_member 3 []; plain_member 1 []; plain_member 2 []]
  = txt_table [plain_member 1 []; plain_member 2 []; plain_member 3 []].
Proof.
  apply (txt_table_insertion_order
           [plain_member 3 []; plain_member 1 []; plain_member 2 []]
           [plain_member 1 []; plain_member 2 []; plain_member 3 []]).
  - apply (bool_decide_unpack _). by vm_compute.
  - etrans; [apply Permutation_swap|].
    apply Permutation_skip, Permutation_swap.
Defined.

(** * Properties of the decoding *)

(** ** Dictionaries keyed by strings *)

Section SDictFacts.
Context {V : Type}.
Implicit Types (d : list (string * V)) (k : string) (v : V).

Lemma sget_set_eq d k v : SDict.get (SDict.set d k v) k = Some v.
Proof.
  induction d as [|[k' v'] d IH]; simpl.
  - by rewrite String.eqb_refl.
  - destruct (String.eqb k' k) eqn:E; simpl; rewrite E; [done | apply IH].
Qed.

Lemma sget_set_ne d k k' v :
  k ≠ k' → SDict.get (SDict.set d k v) k' = SDict.get d k'.
Proof.
  intros Hne. induction d as [|[k0 v0] d IH]; simpl.
  - by apply String.eqb_neq in Hne as ->.
  - destruct (String.eqb k0 k) eqn:E; simpl; [|by rewrite IH].
    apply String.eqb_eq in E as ->. by apply String.eqb_neq in Hne as ->.
Qed.

Lemma is_field_eqb k k' names :
  String.eqb k k' = true → is_field k names = is_field k' names.
Proof. by intros ->%String.eqb_eq. Qed.

Lemma sget_filter d allowed k :
  SDict.get (_filter_dataclass_fields d (Some allowed)) k
  = if is_field k allowed then SDict.get d k else None.
Proof.
  induction d as [|[k' v'] d IH]; [simpl; by destruct (is_field k allowed)|].
  cbn [_filter_dataclass_fields List.filter fst SDict.get] in *.
  destruct (String.eqb k' k) eqn:E.
  - rewrite (is_field_eqb k' k allowed E).
    destruct (is_field k allowed) eqn:Hk.
    + cbn [SDict.get]. by rewrite E.
    + exact IH.
  - destruct (is_field k' allowed); cbn [SDict.get]; [rewrite E|]; apply IH.
Qed.

Lemma filter_only_fields d allowed :
  forallb (λ kv, is_field kv.1 allowed)
    (_filter_dataclass_fields d (Some allowed)) = true.
Proof.
  induction d as [|[k' v'] d IH]; simpl; [done|].
  destruct (is_field k' allowed) eqn:E; simpl; [by rewrite E|]. apply IH.
Qed.

Lemma filter_keys_sublist d allowed :
  SDict.keys (_filter_dataclass_fields d (Some allowed))
    `sublist_of` SDict.keys d.
Proof.
  unfold SDict.keys. induction d as [|[k' v'] d IH]; simpl; [done|].
  destruct (is_field k' allowed); simpl.
  - by apply sublist_skip.
  - by apply sublist_cons.
Qed.
End SDictFacts.

Lemma sget_map_PJson (fields : list (string * json)) k :
  SDict.get (map (λ kv, (kv.1, PJson kv.2)) fields) k
  = PJson <$> SDict.get fields k.
Proof.
  induction fields as [|[k' j] fields IH]; simpl; [done|].
  by destruct (String.eqb k' k).
Qed.

(** X14: [_filter_dataclass_fields] keeps exactly the entries whose key
    is a field of the dataclass, in their order and with their values;
    every other key is dropped, and filtering twice changes nothing
    more. *)
Theorem filter_keeps_dataclass_fields {V} (data : list (string * V))
    (allowed : list string) (k : string) :
  SDict.get (_filter_dataclass_fields data (Some allowed)) k
  = (if is_field k allowed then SDict.get data k else None)
  ∧ SDict.keys (_filter_dataclass_fields data (Some allowed))
      `sublist_of` SDict.keys data
  ∧ Forall (λ k', is_field k' allowed = true)
      (SDict.keys (_filter_dataclass_fields data (Some allowed)))
  ∧ _filter_dataclass_fields
      (_filter_dataclass_fields data (Some allowed)) (Some allowed)
    = _filter_dataclass_fields data (Some allowed).
Proof.
  split_and!.
  - apply sget_filter.
  - apply filter_keys_sublist.
  - unfold SDict.keys. apply Forall_fmap, Forall_forall. intros [k' v'] Hin.
    pose proof (filter_only_fields data allowed) as H.
    rewrite forallb_forall in H. apply (H (k', v')).
    by apply list_elem_of_In.
  - simpl. induction data as [|[k' v'] data IH]; simpl; [done|].
    destruct (is_field k' allowed) eqn:E; simpl; [rewrite E; by f_equal | done].
Qed.

(** ** Members *)

Lemma parse_member_lookup fields :
  parse_member (JObj fields) = member_by_lookup fields.
Proof.
  unfold parse_member, make_MemberDto, member_by_lookup.
  rewrite filter_only_fields. simpl negb. cbv iota.
  by rewrite !sget_filter.
Qed.

(** ** Documents *)

Lemma parse_category_lookup raw fields field :
  SDict.get raw field = PJson <$> SDict.get fields field →
  parse_category raw field
  = match category_of fields field with
    | Ok ms => Ok (SDict.set raw field (PMembers ms))
    | Raise e => Raise e
    end.
Proof.
  intros H. unfold parse_category, category_of. rewrite H.
  by destruct (SDict.get fields field).
Qed.

(** [_parse_division_dto] builds the document from the lookups of the
    raw document. *)
Lemma parse_lookup_form fromisoformat fields :
  _parse_division_dto fromisoformat (JObj fields)
  = decode_by_lookup fromisoformat fields.
Proof.
  unfold _parse_division_dto, decode_by_lookup.
  set (raw := map (λ kv, (kv.1, PJson kv.2)) fields).
  assert (Hdate : ∃ raw1 date,
    (parse_date fromisoformat raw = Ok raw1
     ∧ date_of fromisoformat fields = Ok date
     ∧ SDict.get raw1 "Date" = date
     ∧ ∀ k, k ≠ "Date" → SDict.get raw1 k = PJson <$> SDict.get fields k)
    ∨ ∃ e, parse_date fromisoformat raw = Raise e
           ∧ date_of fromisoformat fields = Raise e).
  { unfold parse_date, date_of. subst raw. rewrite sget_map_PJson.
    destruct (SDict.get fields "Date") as [j|] eqn:Hd; simpl.
    - destruct j as [|b|z|s|xs|fs];
        try (eexists _, _; left; split_and!;
             [done | done | by rewrite sget_map_PJson, Hd
             | intros k _; apply sget_map_PJson]).
      destruct (_deserialise_datetime fromisoformat s) as [d|e].
      + eexists _, _. left. split_and!; [done | done | apply sget_set_eq |].
        intros k Hk. by rewrite sget_set_ne, sget_map_PJson.
      + exists [], None. right. by exists e.
    - eexists _, _. left. split_and!;
        [done | done | by rewrite sget_map_PJson, Hd
        | intros k _; apply sget_map_PJson]. }
  destruct Hdate as (raw1 & date & [(-> & -> & Hd & Hother)|(e & -> & ->)]);
    [|done].
  unfold parse_categories, category_fields.
  rewrite (parse_category_lookup raw1 fields "Ayes")
    by (apply Hother; discriminate).
  destruct (category_of fields "Ayes") as [ayes|e]; [|done].
  rewrite (parse_category_lookup _ fields "AyeTellers")
    by (rewrite sget_set_ne by discriminate; apply Hother; discriminate).
  destruct (category_of fields "AyeTellers") as [aye_tellers|e]; [|done].
  rewrite (parse_category_lookup _ fields "Noes")
    by (rewrite !sget_set_ne by discriminate; apply Hother; discriminate).
  destruct (category_of fields "Noes") as [noes|e]; [|done].
  rewrite (parse_category_lookup _ fields "NoTellers")
    by (rewrite !sget_set_ne by discriminate; apply Hother; discriminate).
  destruct (category_of fields "NoTellers") as [no_tellers|e]; [|done].
  rewrite (parse_category_lookup _ fields "NoVoteRecorded")
    by (rewrite !sget_set_ne by discriminate; apply Hother; discriminate).
  destruct (category_of fields "NoVoteRecorded") as [absent|e]; [|done].
  unfold make_DivisionDto. rewrite filter_only_fields. simpl negb. cbv iota.
  rewrite !sget_filter.
  change (is_field "DivisionId" DivisionDto_fields) with true.
  change (is_field "Date" DivisionDto_fields) with true.
  change (is_field "Title" DivisionDto_fields) with true.
  change (is_field "AyeCount" DivisionDto_fields) with true.
  change (is_field "NoCount" DivisionDto_fields) with true.
  change (is_field "Ayes" DivisionDto_fields) with true.
  change (is_field "AyeTellers" DivisionDto_fields) with true.
  change (is_field "Noes" DivisionDto_fields) with true.
  change (is_field "NoTellers" DivisionDto_fields) with true.
  change (is_field "NoVoteRecorded" DivisionDto_fields) with true.
  cbv iota.
  repeat first [ rewrite sget_set_eq | rewrite sget_set_ne by discriminate ].
  rewrite Hd, !Hother by discriminate.
  destruct (SDict.get fields "DivisionId"); [|done].
  destruct date; [|done].
  destruct (SDict.get fields "Title"); [|done].
  destruct (SDict.get fields "AyeCount"); [|done].
  by destruct (SDict.get fields "NoCount").
Qed.

Lemma not_field_ne k names n :
  is_field k names = false → n ∈ names → k ≠ n.
Proof.
  unfold is_field. intros H Hn ->.
  assert (existsb (String.eqb n) names = true); [|congruence].
  apply existsb_exists. exists n. split; [by apply list_elem_of_In|].
  apply String.eqb_refl.
Qed.

(** X15: a field of the document that [DivisionDto] does not define is
    ignored: adding it, or changing it, does not change the decoded
    division nor whether decoding fails. *)
Theorem unknown_document_field_ignored fromisoformat fields k v :
  is_field k DivisionDto_fields = false →
  _parse_division_dto fromisoformat (JObj (SDict.set fields k v))
  = _parse_division_dto fromisoformat (JObj fields).
Proof.
  intros Hk. rewrite !parse_lookup_form.
  assert (Hne : ∀ n, n ∈ DivisionDto_fields →
            SDict.get (SDict.set fields k v) n = SDict.get fields n).
  { intros n Hn. apply sget_set_ne. by eapply not_field_ne. }
  unfold decode_by_lookup, date_of, category_of.
  rewrite !Hne by (unfold DivisionDto_fields; set_solver).
  done.
Qed.

Lemma unknown_document_field_ignored_witness :
  _parse_division_dto fromisoformat_sample
    (JObj (SDict.set json_sample "IsDeferred" (JList [JInt 1])))
  = _parse_division_dto fromisoformat_sample (JObj json_sample)
  ∧ is_ok (_parse_division_dto fromisoformat_sample (JObj json_sample))
    = true.
Proof.
  split; [|reflexivity].
  apply (unknown_document_field_ignored fromisoformat_sample json_sample
           "IsDeferred" (JList [JInt 1])).
  reflexivity.
Defined.

(** X16: a field of a member object that [MemberDto] does not define is
    ignored: adding it, or changing it, does not change the decoded
    member nor whether decoding fails. *)
Theorem unknown_member_field_ignored fields k v :
  is_field k MemberDto_fields = false →
  parse_member (JObj (SDict.set fields k v)) = parse_member (JObj fields).
Proof.
  intros Hk. rewrite !parse_member_lookup.
  assert (Hne : ∀ n, n ∈ MemberDto_fields →
            SDict.get (SDict.set fields k v) n = SDict.get fields n).
  { intros n Hn. apply sget_set_ne. by eapply not_field_ne. }
  unfold member_by_lookup.
  rewrite !Hne by (unfold MemberDto_fields; set_solver).
  done.
Qed.

Lemma unknown_member_field_ignored_witness :
  parse_member
    (JObj [("MemberId", JInt 5); ("Name", JStr "Jo Smith");
           ("Party", JStr "X"); ("Age", JInt 40)])
  = parse_member
      (JObj [("MemberId", JInt 5); ("Name", JStr "Jo Smith");
             ("Party", JStr "X")]).
Proof.
  apply (unknown_member_field_ignored
           [("MemberId", JInt 5); ("Name", JStr "Jo Smith");
            ("Party", JStr "X")] "Age" (JInt 40)).
  reflexivity.
Defined.

(** X17: a category that is absent from the document, [null], or
    otherwise falsy is decoded like a category that is present and
    empty: the document decodes to the same division. *)
Theorem missing_category_is_empty fromisoformat fields field :
  field ∈ category_fields →
  empty_category (SDict.get fields field) = true →
  _parse_division_dto fromisoformat (JObj fields)
  = _parse_division_dto fromisoformat
      (JObj (SDict.set fields field (JList []))).
Proof.
  intros Hf Hempty. rewrite !parse_lookup_form.
  assert (Hcat : category_of fields field = Ok []).
  { unfold category_of, empty_category in *.
    destruct (SDict.get fields field) as [j|]; [|done].
    by destruct (truthy j). }
  unfold category_fields in Hf.
  repeat (apply elem_of_cons in Hf as [->|Hf]);
    [| | | | | by apply elem_of_nil in Hf];
    unfold decode_by_lookup, date_of;
    unfold category_of at 6 7 8 9 10;
    rewrite ?sget_set_eq, ?Hcat;
    rewrite !sget_set_ne by discriminate;
    unfold category_of in *; try rewrite Hcat; done.
Qed.

Lemma missing_category_is_empty_witness :
  _parse_division_dto fromisoformat_sample (JObj json_sample)
  = _parse_division_dto fromisoformat_sample
      (JObj (SDict.set json_sample "Noes" (JList [])))
  ∧ _parse_division_dto fromisoformat_sample (JObj json_sample)
    = _parse_division_dto fromisoformat_sample
        (JObj (SDict.set json_sample "NoTellers" (JList []))).
Proof.
  split.
  - apply (missing_category_is_empty fromisoformat_sample json_sample "Noes");
      [unfold category_fields; set_solver | reflexivity].
  - apply (missing_category_is_empty fromisoformat_sample json_sample
             "NoTellers");
      [unfold category_fields; set_solver | reflexivity].
Defined.

(** X18: a document is decoded only when it is an object that holds
    [DivisionId], [Date], [Title], [AyeCount] and [NoCount]; the decoded
    division carries their values as they are, except for a date given
    as a string, which is parsed. A document that lacks one of them is
    never decoded. *)
Theorem decoded_document_has_required_fields fromisoformat raw_data obj :
  _parse_division_dto fromisoformat raw_data = Ok obj →
  ∃ fields i d t a n,
    raw_data = JObj fields
    ∧ SDict.get fields "DivisionId" = Some i ∧ obj_DivisionId obj = PJson i
    ∧ SDict.get fields "Date" = Some d
    ∧ match d with
      | JStr s => ∃ dt, _deserialise_datetime fromisoformat s = Ok dt
                        ∧ obj_Date obj = PDatetime dt
      | _ => obj_Date obj = PJson d
      end
    ∧ SDict.get fields "Title" = Some t ∧ obj_Title obj = PJson t
    ∧ SDict.get fields "AyeCount" = Some a ∧ obj_AyeCount obj = PJson a
    ∧ SDict.get fields "NoCount" = Some n ∧ obj_NoCount obj = PJson n.
Proof.
  destruct raw_data as [|b|z|s|xs|fields]; try done.
  rewrite parse_lookup_form. unfold decode_by_lookup, date_of.
  intros H. exists fields.
  destruct (SDict.get fields "Date") as [d|] eqn:Hd.
  - assert (Hdate : ∃ date,
      match d with
      | JStr s =>
          match _deserialise_datetime fromisoformat s with
          | Ok d0 => Ok (Some (PDatetime d0))
          | Raise e => Raise e
          end
      | _ => Ok (Some (PJson d))
      end = Ok (Some date)
      ∧ match d with
        | JStr s => ∃ dt, _deserialise_datetime fromisoformat s = Ok dt
                          ∧ date = PDatetime dt
        | _ => date = PJson d
        end).
    { destruct d as [|b|z|s|xs|fs]; try (by eexists).
      destruct (_deserialise_datetime fromisoformat s) as [dt|e]; [|done].
      eexists. split; [done|]. by exists dt. }
    destruct Hdate as (date & Hdate & Hshape).
    assert (Hd' : (match d with
                   | JStr s =>
                       match _deserialise_datetime fromisoformat s with
                       | Ok d0 => Ok (Some (PDatetime d0))
                       | Raise e => Raise e
                       end
                   | _ => Ok (Some (PJson d))
                   end) = Ok (Some date)) by exact Hdate.
    replace (match d with
             | JStr s =>
                 match _deserialise_datetime fromisoformat s with
                 | Ok d0 => Ok (Some (PDatetime d0))
                 | Raise e => Raise e
                 end
             | _ => Ok (Some (PJson d))
             end) with (@Ok (option pyval) (Some date)) in H
      by (symmetry; destruct d; exact Hd').
    destruct (category_of fields "Ayes") as [c1|]; [|done].
    destruct (category_of fields "AyeTellers") as [c2|]; [|done].
    destruct (category_of fields "Noes") as [c3|]; [|done].
    destruct (category_of fields "NoTellers") as [c4|]; [|done].
    destruct (category_of fields "NoVoteRecorded") as [c5|]; [|done].
    destruct (SDict.get fields "DivisionId") as [i|]; [|done].
    destruct (SDict.get fields "Title") as [t|]; [|done].
    destruct (SDict.get fields "AyeCount") as [a|]; [|done].
    destruct (SDict.get fields "NoCount") as [n|]; [|done].
    injection H as <-. exists i, d, t, a, n. simpl.
    split_and!; try done.
  - exfalso.
    destruct (category_of fields "Ayes") as [c1|]; [|done].
    destruct (category_of fields "AyeTellers") as [c2|]; [|done].
    destruct (category_of fields "Noes") as [c3|]; [|done].
    destruct (category_of fields "NoTellers") as [c4|]; [|done].
    destruct (category_of fields "NoVoteRecorded") as [c5|]; [|done].
    by destruct (SDict.get fields "DivisionId").
Qed.

Lemma decoded_document_has_required_fields_witness :
  ∃ obj,
    _parse_division_dto fromisoformat_sample (JObj json_sample) = Ok obj
    ∧ obj_DivisionId obj = PJson (JInt 100)
    ∧ obj_Title obj = PJson (JStr "Bill A").
Proof.
  destruct (_parse_division_dto fromisoformat_sample (JObj json_sample))
    as [obj|e] eqn:E; [|vm_compute in E; discriminate].
  exists obj. split; [reflexivity|].
  destruct (decoded_document_has_required_fields fromisoformat_sample
              (JObj json_sample) obj E)
    as (fields & i & d & t & a & n & Hraw & Hi & Hoi & _ & _ & Ht & Hot & _).
  injection Hraw as <-. vm_compute in Hi, Ht.
  injection Hi as <-. injection Ht as <-. by split.
Defined.

(** ** Categories *)

Lemma map_result_Forall2 {A B} (f : A → Result B) xs ys :
  map_result f xs = Ok ys → Forall2 (λ x y, f x = Ok y) xs ys.
Proof.
  revert ys. induction xs as [|x xs IH]; intros ys; simpl.
  - intros [= <-]. constructor.
  - destruct (f x) as [y|e] eqn:Hy; [|done].
    destruct (map_result f xs) as [ys'|e]; [|done].
    intros [= <-]. constructor; [done | by apply IH].
Qed.

Lemma parse_member_decoded x m : parse_member x = Ok m → decoded_member x m.
Proof.
  destruct x as [|b|z|s|xs|fields]; try done.
  rewrite parse_member_lookup. unfold member_by_lookup.
  destruct (SDict.get fields "MemberId") as [i|] eqn:Hi; [|done].
  destruct (SDict.get fields "Name") as [n|] eqn:Hn; [|done].
  destruct (SDict.get fields "Party") as [p|] eqn:Hp; [|done].
  intros [= <-]. by exists fields.
Qed.

Lemma category_field_decoded fromisoformat fields obj field :
  field ∈ category_fields →
  decode_by_lookup fromisoformat fields = Ok obj →
  ∃ ms, category_of fields field = Ok ms
        ∧ category_field obj field = PMembers ms.
Proof.
  intros Hf. unfold decode_by_lookup.
  destruct (date_of fromisoformat fields) as [date|]; [|done].
  destruct (category_of fields "Ayes") as [c1|] eqn:E1; [|done].
  destruct (category_of fields "AyeTellers") as [c2|] eqn:E2; [|done].
  destruct (category_of fields "Noes") as [c3|] eqn:E3; [|done].
  destruct (category_of fields "NoTellers") as [c4|] eqn:E4; [|done].
  destruct (category_of fields "NoVoteRecorded") as [c5|] eqn:E5; [|done].
  destruct (SDict.get fields "DivisionId"); [|done].
  destruct date; [|done].
  destruct (SDict.get fields "Title"); [|done].
  destruct (SDict.get fields "AyeCount"); [|done].
  destruct (SDict.get fields "NoCount"); [|done].
  intros [= <-]. unfold category_fields in Hf.
  repeat (apply elem_of_cons in Hf as [->|Hf]);
    [| | | | | by apply elem_of_nil in Hf]; eexists; by split.
Qed.

(** X19: when a document is decoded, every category given as a list was
    decoded element by element, in order: each element is an object that
    holds [MemberId], [Name] and [Party], which the member carries as
    they are. One element that is not such an object makes the decoding
    of the whole document fail. *)
Theorem decoded_category_members fromisoformat fields obj field xs :
  _parse_division_dto fromisoformat (JObj fields) = Ok obj →
  field ∈ category_fields →
  SDict.get fields field = Some (JList xs) →
  ∃ ms, category_field obj field = PMembers ms
        ∧ Forall2 decoded_member xs ms.
Proof.
  rewrite parse_lookup_form. intros Hobj Hf Hxs.
  destruct (category_field_decoded _ _ _ _ Hf Hobj) as (ms & Hcat & Hfield).
  exists ms. split; [done|].
  unfold category_of in Hcat. rewrite Hxs in Hcat.
  destruct xs as [|x xs].
  - injection Hcat as <-. constructor.
  - change (map_result parse_member (x :: xs) = Ok ms) in Hcat.
    apply map_result_Forall2 in Hcat.
    eapply Forall2_impl; [exact Hcat|]. intros x' m'. apply parse_member_decoded.
Qed.

Lemma decoded_category_members_witness :
  ∃ obj m,
    _parse_division_dto fromisoformat_sample (JObj json_sample) = Ok obj
    ∧ obj_Ayes obj = PMembers [m]
    ∧ decoded_member (json_member 5 "Jo Smith" "X") m.
Proof.
  destruct (_parse_division_dto fromisoformat_sample (JObj json_sample))
    as [obj|e] eqn:E; [|vm_compute in E; discriminate].
  destruct (decoded_category_members fromisoformat_sample json_sample obj
              "Ayes" [json_member 5 "Jo Smith" "X"] E)
    as (ms & Hms & Hall); [unfold category_fields; set_solver | reflexivity |].
  apply Forall2_cons_inv_l in Hall as (m & ms' & Hm & Hnil & ->).
  apply Forall2_nil_inv_l in Hnil as ->.
  exists obj, m. split; [reflexivity|]. by split.
Defined.

(** ** Timestamps *)

Lemma string_app_assoc (a b c : string) : (a +:+ b) +:+ c = a +:+ (b +:+ c).
Proof.
  induction a as [|x a IH]; [done|].
  change (String x ((a +:+ b) +:+ c) = String x (a +:+ (b +:+ c))).
  by rewrite IH.
Qed.

Lemma replace_char_app old new s1 s2 :
  replace_char old new (s1 +:+ s2)
  = replace_char old new s1 +:+ replace_char old new s2.
Proof.
  induction s1 as [|c s1 IH]; simpl; [done|].
  destruct (Ascii.eqb c old); rewrite IH; [|done].
  by rewrite string_app_assoc.
Qed.

Lemma replace_char_absent old new s :
  no_char old s = true → replace_char old new s = s.
Proof.
  induction s as [|c s IH]; simpl; [done|].
  destruct (Ascii.eqb c old); simpl; [done|]. intros H. by rewrite IH.
Qed.

(** X20: [_deserialise_datetime] parses a timestamp without "Z" as it
    is, and reads a timestamp that ends in "Z" as the same timestamp at
    offset "+00:00". *)
Theorem deserialise_reads_Z_as_utc fromisoformat s :
  no_char "Z" s = true →
  _deserialise_datetime fromisoformat s = fromisoformat s
  ∧ _deserialise_datetime fromisoformat (s +:+ "Z")
    = fromisoformat (s +:+ "+00:00").
Proof.
  intros Hs. unfold _deserialise_datetime.
  rewrite replace_char_app, replace_char_absent by done. done.
Qed.

Lemma deserialise_reads_Z_as_utc_witness :
  _deserialise_datetime fromisoformat_sample "2020-01-08T18:25:00Z"
  = Ok (mk_datetime 2020 1 8 18 25 0 0 (Some 0)).
Proof.
  destruct (deserialise_reads_Z_as_utc fromisoformat_sample
              "2020-01-08T18:25:00") as [_ H]; [reflexivity|].
  etrans; [exact H | reflexivity].
Defined.

(** ** A division only touches its own votes *)

Lemma same_votes_but_refl d s : same_votes_but d s s.
Proof. by intros m d' H. Qed.

Lemma same_votes_but_trans d s1 s2 s3 :
  same_votes_but d s1 s2 → same_votes_but d s2 s3 → same_votes_but d s1 s3.
Proof. intros H12 H23 m d' H. by rewrite H23, H12. Qed.

Lemma add_member_vote_same_votes_but d v mem s :
  same_votes_but d s (snd (add_member_vote d v mem s)).
Proof.
  intros m d' Hd. rewrite stored_vote_step.
  destruct (stored_vote s m d'); [done|].
  apply Z.eqb_neq in Hd. by rewrite Hd, andb_false_r.
Qed.

(** X21: processing a document changes no outcome stored for another
    division, for any member and however the processing ends: what a
    division adds are outcomes under its own id only. *)
Theorem division_touches_own_votes_only api ds de no dto s m d' :
  api no = Document dto →
  d' ≠ DivisionId dto →
  stored_vote (snd (iteration api ds de no s)) m d' = stored_vote s m d'.
Proof.
  intros Hapi Hd.
  assert (H : same_votes_but (DivisionId dto) s
                (snd (process_division api ds de no
                        (snd (print (Progress no) s))))).
  { unfold process_division, fetch_division, bind, lift. rewrite Hapi. simpl.
    destruct (out_of_range (Date dto) ds de) as [[|]|e]; simpl;
      [by intros ? ? ? | | by intros ? ? ?].
    eapply same_votes_but_trans;
      [|apply (preserves_aggregate_votes (same_votes_but (DivisionId dto))
                 (same_votes_but_refl _) (same_votes_but_trans _) dto)].
    - by intros ? ? ?.
    - intros v mem s0. apply add_member_vote_same_votes_but. }
  unfold iteration, bind at 1, try_except. cbn [print].
  change (mk_State (divisions s) (members s) (console s ++ [Progress no]))
    with (snd (print (Progress no) s)).
  destruct (process_division _ _ _ _ _) as [[[]|e] s1]; simpl in *.
  - by apply H.
  - rewrite <- (H m d' Hd). by destruct e.
Qed.

Lemma division_touches_own_votes_only_witness :
  let s := snd (iteration api_scenario DATE_START DATE_END 723 init) in
  let s' := snd (iteration api_late_member DATE_START DATE_END 724 s) in
  stored_vote s' 5 100 = Some Aye ∧ stored_vote s' 6 100 = Some NoTeller.
Proof.
  intros s s'. subst s'. split.
  - rewrite (division_touches_own_votes_only api_late_member DATE_START
               DATE_END 724
               (division 101 (naive 2020 1 9 12 0) "Bill B"
                  [] [] [member 6 "Al Jones" "Y" None] [] []) s 5 100);
      [reflexivity | reflexivity | simpl; lia].
  - rewrite (division_touches_own_votes_only api_late_member DATE_START
               DATE_END 724
               (division 101 (naive 2020 1 9 12 0) "Bill B"
                  [] [] [member 6 "Al Jones" "Y" None] [] []) s 6 100);
      [reflexivity | reflexivity | simpl; lia].
Defined.
